(** * The conversation state machine of the voice agent (flows/conversationFlow.js)

    A shallow embedding of [ConversationFlow]: the keyed store of conversation
    records, the field extractors, the provider and slot directory, the step
    handlers and the dialogue driver [processMessage], followed by the
    properties of the specification that concern them.

    Conventions of the embedding.
    - A JavaScript string is a [string] of bytes; utterances are taken to be
      ASCII, so [toLowerCase] folds [A-Z] only and [\s] is ASCII white space.
    - [null] and [undefined] are [None]; every truthiness test of the source is
      made on a value that is either [null]/[undefined] or a non-empty string
      or an object, so it is a test for [Some].
    - Integers are [Z]; the hours handled by the slot generator are far inside
      the range in which a JavaScript number is an exact integer.
    - A thrown [TypeError] is the result [Throw]; the store is threaded through
      every handler, so that a write made before a throw stays made.
    - [await] is sequential composition: one utterance is processed at a time.
    - moment.js and the host's [Date] are dependencies of the repository, not
      part of it; module [Moment] models the part of their behaviour that the
      flow uses. *)

From Stdlib Require Import ZArith QArith String Ascii List Lia Bool.
From stdpp Require Import gmap strings.

Local Open Scope string_scope.
Local Open Scope list_scope.
Local Open Scope Z_scope.

(** ** JavaScript string primitives *)

Module JS.

Definition isUpper (c : ascii) : bool :=
  let n := nat_of_ascii c in (65 <=? n)%nat && (n <=? 90)%nat.

Definition lowerChar (c : ascii) : ascii :=
  if isUpper c then ascii_of_nat (nat_of_ascii c + 32) else c.

(** [String.prototype.toLowerCase] *)
Fixpoint toLowerCase (s : string) : string :=
  match s with
  | EmptyString => EmptyString
  | String c s' => String (lowerChar c) (toLowerCase s')
  end.

(** [String.prototype.startsWith] *)
Fixpoint startsWith (s p : string) : bool :=
  match p, s with
  | EmptyString, _ => true
  | String a p', String b s' => Ascii.eqb a b && startsWith s' p'
  | String _ _, EmptyString => false
  end.

(** [String.prototype.includes] *)
Fixpoint includes (s sub : string) : bool :=
  startsWith s sub ||
  match s with
  | EmptyString => false
  | String _ s' => includes s' sub
  end.

(** [s.split(sep)[0]] for a one-character separator: the text before the
    first separator, the whole string when there is none. *)
Fixpoint splitHead (sep : ascii) (s : string) : string :=
  match s with
  | EmptyString => EmptyString
  | String c s' => if Ascii.eqb c sep then EmptyString else String c (splitHead sep s')
  end.

Fixpoint repeatChar (n : nat) (c : ascii) : string :=
  match n with
  | O => EmptyString
  | S n' => String c (repeatChar n' c)
  end.

(** [String.prototype.padStart] with a one-character filler *)
Definition padStart (s : string) (n : nat) (c : ascii) : string :=
  repeatChar (n - String.length s) c +:+ s.

Definition isDigit (c : ascii) : bool :=
  let n := nat_of_ascii c in (48 <=? n)%nat && (n <=? 57)%nat.

Definition digitVal (c : ascii) : Z := Z.of_nat (nat_of_ascii c) - 48.

Definition digitChar (d : Z) : ascii := ascii_of_nat (Z.to_nat (48 + d)).

(** Decimal digits of a positive number, most significant first; a number
    has no more decimal digits than binary ones, which bounds the loop. *)
Fixpoint digitsFuel (fuel : nat) (n : Z) (acc : string) : string :=
  match fuel with
  | O => acc
  | S f =>
      let acc' := String (digitChar (n mod 10)) acc in
      if n / 10 =? 0 then acc' else digitsFuel f (n / 10) acc'
  end.

Definition digits (n : Z) : string :=
  digitsFuel (S (Z.to_nat (Z.log2 n))) n EmptyString.

(** [Number.prototype.toString] on an integer *)
Definition numToString (n : Z) : string :=
  if n =? 0 then "0"
  else if n <? 0 then String "-" (digits (- n))
  else digits n.

Definition isSpace (c : ascii) : bool :=
  let n := nat_of_ascii c in (n =? 32)%nat || ((9 <=? n)%nat && (n <=? 13)%nat).

Fixpoint trimStart (s : string) : string :=
  match s with
  | String c s' => if isSpace c then trimStart s' else s
  | EmptyString => s
  end.

Definition hexVal (c : ascii) : option Z :=
  let n := nat_of_ascii c in
  if isDigit c then Some (digitVal c)
  else if (97 <=? n)%nat && (n <=? 102)%nat then Some (Z.of_nat n - 87)
  else if (65 <=? n)%nat && (n <=? 70)%nat then Some (Z.of_nat n - 55)
  else None.

(** The longest prefix of digits in the given radix, read as a number;
    [None] when that prefix is empty. *)
Fixpoint readDigits (val : ascii -> option Z) (radix : Z) (s : string) (acc : option Z)
  : option Z :=
  match s with
  | String c s' =>
      match val c with
      | Some d => readDigits val radix s' (Some (radix * default 0 acc + d))
      | None => acc
      end
  | EmptyString => acc
  end.

Definition decVal (c : ascii) : option Z :=
  if isDigit c then Some (digitVal c) else None.

Definition readUnsigned (s : string) : option Z :=
  match s with
  | String "0" (String x s') =>
      if Ascii.eqb x "x" || Ascii.eqb x "X" then readDigits hexVal 16 s' None
      else readDigits decVal 10 s None
  | _ => readDigits decVal 10 s None
  end.

(** [parseInt(s)] without a radix; [None] is [NaN]. *)
Definition parseInt (s : string) : option Z :=
  match trimStart s with
  | String "-" s' => Z.opp <$> readUnsigned s'
  | String "+" s' => readUnsigned s'
  | s' => readUnsigned s'
  end.

(** Rendering of a nullable string inside a template literal *)
Definition showNullable (o : option string) : string :=
  match o with
  | Some s => s
  | None => "null"
  end.

End JS.

(** ** Regular expressions

    The three patterns of the flow use character classes, sequencing,
    alternation, [?], bounded repetition and [\s*]. The matcher is the
    backtracking one of ECMAScript: alternatives in order, greedy
    quantifiers, the leftmost match wins. *)

Module Regex.

Inductive regex : Type :=
| Eps
| Cls (p : ascii -> bool)
| Cat (r1 r2 : regex)
| Alt (r1 r2 : regex)
| StarCls (p : ascii -> bool).

Definition chr (c : ascii) : regex := Cls (Ascii.eqb c).
Definition oneOf (cs : list ascii) : regex := Cls (fun c => existsb (Ascii.eqb c) cs).
Definition opt (r : regex) : regex := Alt r Eps.
Definition cat (rs : list regex) : regex := fold_right Cat Eps rs.

Fixpoint times (n : nat) (r : regex) : regex :=
  match n with
  | O => Eps
  | S n' => Cat r (times n' r)
  end.

(** [r{1,2}] *)
Definition oneOrTwo (r : regex) : regex := Cat r (opt r).

(** Greedy iteration of a character class with continuation [k]. *)
Fixpoint starCls {A} (p : ascii -> bool) (s : string) (k : string -> option A) : option A :=
  match s with
  | String c s' =>
      if p c then
        match starCls p s' k with
        | Some x => Some x
        | None => k s
        end
      else k s
  | EmptyString => k s
  end.

(** [rmatch r s k]: match [r] at the start of [s], then hand the rest of the
    input to [k]; backtrack into [r] when [k] fails. *)
Fixpoint rmatch {A} (r : regex) (s : string) (k : string -> option A) : option A :=
  match r with
  | Eps => k s
  | Cls p =>
      match s with
      | String c s' => if p c then k s' else None
      | EmptyString => None
      end
  | Cat r1 r2 => rmatch r1 s (fun s1 => rmatch r2 s1 k)
  | Alt r1 r2 =>
      match rmatch r1 s k with
      | Some x => Some x
      | None => rmatch r2 s k
      end
  | StarCls p => starCls p s k
  end.

(** The text matched at the start of [s], if any. *)
Definition matchHere (r : regex) (s : string) : option string :=
  match rmatch r s Some with
  | Some rest => Some (substring 0 (String.length s - String.length rest) s)
  | None => None
  end.

(** [s.match(r)[0]] for a pattern without the [g] flag: the leftmost match,
    [None] when [match] returns [null]. *)
Fixpoint exec (r : regex) (s : string) : option string :=
  match matchHere r s with
  | Some m => Some m
  | None =>
      match s with
      | String _ s' => exec r s'
      | EmptyString => None
      end
  end.

Definition digit : regex := Cls JS.isDigit.

(** [[-.\s]] *)
Definition phoneSep : regex :=
  Cls (fun c => Ascii.eqb c "-" || Ascii.eqb c "." || JS.isSpace c).

(** [[\/\-]] *)
Definition dateSep : regex := oneOf ["/"%char; "-"%char].

(** [/(\+?1?[-.\s]?)?\(?([0-9]{3})\)?[-.\s]?([0-9]{3})[-.\s]?([0-9]{4})/] *)
Definition phoneRegex : regex :=
  cat [ opt (cat [opt (chr "+"); opt (chr "1"); opt phoneSep]);
        opt (chr "("); times 3 digit; opt (chr ")"); opt phoneSep;
        times 3 digit; opt phoneSep; times 4 digit ].

(** [/(\d{1,2}[\/\-]\d{1,2}[\/\-]\d{4}|\d{4}[\/\-]\d{1,2}[\/\-]\d{1,2})/] *)
Definition dateRegex : regex :=
  Alt (cat [oneOrTwo digit; dateSep; oneOrTwo digit; dateSep; times 4 digit])
      (cat [times 4 digit; dateSep; oneOrTwo digit; dateSep; oneOrTwo digit]).

(** [/(\d{1,2}:\d{2}|\d{1,2}\s*(am|pm))/i] *)
Definition timeRegex : regex :=
  Alt (cat [oneOrTwo digit; chr ":"; times 2 digit])
      (cat [oneOrTwo digit; StarCls JS.isSpace;
            Alt (cat [oneOf ["a"%char; "A"%char]; oneOf ["m"%char; "M"%char]])
                (cat [oneOf ["p"%char; "P"%char]; oneOf ["m"%char; "M"%char]])]).

End Regex.

(** ** moment.js and the host's Date

    Modelled from the documented behaviour of the two dependencies, for the
    texts the flow hands to [moment(...)]: a match of the date pattern, or a
    date the flow formatted earlier.
    - A text of the exact shape [YYYY-MM-DD] is ISO 8601: moment parses it
      itself and the result is invalid when the month or the day is out of
      range for the calendar.
    - Any other text goes to the host's [Date] constructor. V8 (Node.js)
      reads three numbers separated by [/] or [-] as month, day, year, or as
      year, month, day when the first number cannot be a day; a year below 50
      is in the 2000s and one below 100 in the 1900s; the month must lie in
      1..12 and the day in 1..31, and a day past the end of the month rolls
      over into the next one.
    - Every other text is rejected.
    - Formatting an invalid moment gives the text [Invalid date].
    A valid moment is kept as its local calendar day, counted from
    1970-01-01; the host's time zone is taken to be UTC. *)

Module Moment.

Definition isLeapYear (y : Z) : bool :=
  ((y mod 4 =? 0) && negb (y mod 100 =? 0)) || (y mod 400 =? 0).

Definition daysInMonth (y m : Z) : Z :=
  if m =? 2 then (if isLeapYear y then 29 else 28)
  else if (m =? 4) || (m =? 6) || (m =? 9) || (m =? 11) then 30
  else 31.

(** Day number of a date of the proleptic Gregorian calendar. *)
Definition daysFromCivil (y m d : Z) : Z :=
  let y' := if m <=? 2 then y - 1 else y in
  let era := y' / 400 in
  let yoe := y' - era * 400 in
  let doy := (153 * (if 2 <? m then m - 3 else m + 9) + 2) / 5 + d - 1 in
  let doe := yoe * 365 + yoe / 4 - yoe / 100 + doy in
  era * 146097 + doe - 719468.

(** The date of a day number: year, month, day. *)
Definition civilFromDays (z : Z) : Z * Z * Z :=
  let z' := z + 719468 in
  let era := z' / 146097 in
  let doe := z' - era * 146097 in
  let yoe := (doe - doe / 1460 + doe / 36524 - doe / 146096) / 365 in
  let doy := doe - (365 * yoe + yoe / 4 - yoe / 100) in
  let mp := (5 * doy + 2) / 153 in
  let d := doy - (153 * mp + 2) / 5 + 1 in
  let m := if mp <? 10 then mp + 3 else mp - 9 in
  (yoe + era * 400 + (if m <=? 2 then 1 else 0), m, d).

Inductive moment : Type :=
| Valid (day : Z)
| Invalid.

Fixpoint takeDigits (s : string) : string * string :=
  match s with
  | String c s' =>
      if JS.isDigit c then let (d, r) := takeDigits s' in (String c d, r)
      else (EmptyString, s)
  | EmptyString => (EmptyString, EmptyString)
  end.

Definition isDateSep (c : ascii) : bool := Ascii.eqb c "/" || Ascii.eqb c "-".

(** The three digit groups of [a/b/c] or [a-b-c] with the two separators. *)
Definition threeParts (s : string) : option (string * ascii * string * ascii * string) :=
  let (a, r1) := takeDigits s in
  match r1 with
  | String s1 r1' =>
      let (b, r2) := takeDigits r1' in
      match r2 with
      | String s2 r2' =>
          let (c, r3) := takeDigits r2' in
          match a, b, c, r3 with
          | String _ _, String _ _, String _ _, EmptyString =>
              if isDateSep s1 && isDateSep s2 then Some (a, s1, b, s2, c) else None
          | _, _, _, _ => None
          end
      | EmptyString => None
      end
  | EmptyString => None
  end.

Definition num (s : string) : Z := default 0 (JS.readDigits JS.decVal 10 s None).

Definition isIsoShape (a : string) (s1 : ascii) (b : string) (s2 : ascii) (c : string) : bool :=
  (String.length a =? 4)%nat && (String.length b =? 2)%nat && (String.length c =? 2)%nat
  && Ascii.eqb s1 "-" && Ascii.eqb s2 "-".

Definition between (x lo hi : Z) : bool := (lo <=? x) && (x <=? hi).

(** moment's own reading of [YYYY-MM-DD] *)
Definition parseIso (y m d : Z) : moment :=
  if between m 1 12 && between d 1 (daysInMonth y m)
  then Valid (daysFromCivil y m d) else Invalid.

(** The host's reading of three numbers *)
Definition parseLegacy (a b c : Z) : moment :=
  let '(year, month, day) := if between a 1 31 then (c, a, b) else (a, b, c) in
  let year := if between year 0 49 then year + 2000
              else if between year 50 99 then year + 1900 else year in
  if between month 1 12 && between day 1 31
  then Valid (daysFromCivil year month 1 + day - 1) else Invalid.

(** [moment(s)] *)
Definition parse (s : string) : moment :=
  match threeParts s with
  | Some (a, s1, b, s2, c) =>
      if isIsoShape a s1 b s2 c then parseIso (num a) (num b) (num c)
      else parseLegacy (num a) (num b) (num c)
  | None => Invalid
  end.

(** [m.clone().add(i, 'days')] *)
Definition addDays (m : moment) (i : Z) : moment :=
  match m with
  | Valid d => Valid (d + i)
  | Invalid => Invalid
  end.

Definition zeroFill (n : Z) (width : nat) : string :=
  (if 0 <=? n then EmptyString else "-") +:+ JS.padStart (JS.numToString (Z.abs n)) width "0".

Definition formatYear (y : Z) : string :=
  if y <=? 9999 then zeroFill y 4 else "+" +:+ JS.numToString y.

(** [m.format('YYYY-MM-DD')] *)
Definition formatDate (m : moment) : string :=
  match m with
  | Valid z =>
      let '(y, mo, d) := civilFromDays z in
      formatYear y +:+ "-" +:+ zeroFill mo 2 +:+ "-" +:+ zeroFill d 2
  | Invalid => "Invalid date"
  end.

Definition weekdayNames : list string :=
  ["Sunday"; "Monday"; "Tuesday"; "Wednesday"; "Thursday"; "Friday"; "Saturday"].

(** [m.format('dddd')]; 1970-01-01 was a Thursday. *)
Definition formatWeekday (m : moment) : string :=
  match m with
  | Valid z => nth (Z.to_nat ((z + 4) mod 7)) weekdayNames "Invalid date"
  | Invalid => "Invalid date"
  end.

End Moment.

(** ** Data model *)

(** One day of a provider's weekly schedule, as the configuration gives it:
    [{"start": "10:30", "end": "18:00"}]; a key that is missing or is not a
    string is [None]. *)
Record DaySchedule : Type := {
  start : option string;
  end_ : option string
}.

(** A provider as [getAvailableProviders] builds it; [pschedule] is [None]
    when the configured entry has no [schedule]. *)
Record Provider : Type := {
  pid : string;
  pname : string;
  pschedule : option (gmap string DaySchedule)
}.

(** The fields of [this] that the flow reads. [providerSchedules] maps a
    provider's identifier to the [schedule] of its entry; a missing (or
    [null]) entry is absent from the map. *)
Record Config : Type := {
  providerSchedules : gmap string (option (gmap string DaySchedule));
  lunchBreakStart : string;
  lunchBreakEnd : string
}.

(** The constructor's configuration when the environment sets nothing. *)
Definition defaultConfig : Config :=
  {| providerSchedules := ∅; lunchBreakStart := "13:00"; lunchBreakEnd := "14:00" |}.

(** What one call of the driver reads from outside: the clock, in
    milliseconds since the epoch, and the value of [Math.random()]. *)
Record Env : Type := {
  now : Z;
  random : Q
}.

Record ClientInfo : Type := {
  ci_id : string;
  ci_name : string;
  ci_phone : option string;
  ci_dateOfBirth : option string
}.

Record InsuranceResult : Type := {
  iv_verified : bool;
  iv_provider : string;
  iv_copay : Z;
  iv_deductible : Z;
  iv_deductibleMet : bool
}.

Record Slot : Type := {
  slot_provider : option Provider;
  slot_date : option string;
  slot_time : string;
  slot_type : option string
}.

Record HistoryEntry : Type := {
  role : string;
  content : string;
  timestamp : Z
}.

Record ConversationRecord : Type := {
  callId : string;
  step : string;
  clientVerified : bool;
  clientInfo : option ClientInfo;
  insuranceVerified : bool;
  insuranceInfo : option InsuranceResult;
  appointmentType : option string;
  preferredProvider : option Provider;
  preferredDate : option string;
  preferredTime : option string;
  availableSlots : list Slot;
  selectedSlot : option Slot;
  conversationHistory : list HistoryEntry;
  startTime : Z;
  lastActivity : Z
}.

(** The store [this.conversationStates]: call identifier to record. *)
Abbreviation Store := (gmap string ConversationRecord).

(** One property of the object literal handed to [updateConversationState]. *)
Inductive Update : Type :=
| SetStep (s : string)
| SetClientVerified (b : bool)
| SetClientInfo (c : ClientInfo)
| SetInsuranceVerified (b : bool)
| SetInsuranceInfo (i : InsuranceResult)
| SetAppointmentType (t : string)
| SetPreferredProvider (p : Provider)
| SetPreferredDate (d : string)
| SetPreferredTime (t : string).

Definition assign1 (state : ConversationRecord) (u : Update) : ConversationRecord :=
  match u with
  | SetStep s =>
      {| callId := callId state; step := s; clientVerified := clientVerified state;
         clientInfo := clientInfo state; insuranceVerified := insuranceVerified state;
         insuranceInfo := insuranceInfo state; appointmentType := appointmentType state;
         preferredProvider := preferredProvider state;
         preferredDate := preferredDate state; preferredTime := preferredTime state;
         availableSlots := availableSlots state; selectedSlot := selectedSlot state;
         conversationHistory := conversationHistory state; startTime := startTime state;
         lastActivity := lastActivity state |}
  | SetClientVerified b =>
      {| callId := callId state; step := step state; clientVerified := b;
         clientInfo := clientInfo state; insuranceVerified := insuranceVerified state;
         insuranceInfo := insuranceInfo state; appointmentType := appointmentType state;
         preferredProvider := preferredProvider state;
         preferredDate := preferredDate state; preferredTime := preferredTime state;
         availableSlots := availableSlots state; selectedSlot := selectedSlot state;
         conversationHistory := conversationHistory state; startTime := startTime state;
         lastActivity := lastActivity state |}
  | SetClientInfo c =>
      {| callId := callId state; step := step state;
         clientVerified := clientVerified state; clientInfo := Some c;
         insuranceVerified := insuranceVerified state;
         insuranceInfo := insuranceInfo state; appointmentType := appointmentType state;
         preferredProvider := preferredProvider state;
         preferredDate := preferredDate state; preferredTime := preferredTime state;
         availableSlots := availableSlots state; selectedSlot := selectedSlot state;
         conversationHistory := conversationHistory state; startTime := startTime state;
         lastActivity := lastActivity state |}
  | SetInsuranceVerified b =>
      {| callId := callId state; step := step state;
         clientVerified := clientVerified state; clientInfo := clientInfo state;
         insuranceVerified := b; insuranceInfo := insuranceInfo state;
         appointmentType := appointmentType state;
         preferredProvider := preferredProvider state;
         preferredDate := preferredDate state; preferredTime := preferredTime state;
         availableSlots := availableSlots state; selectedSlot := selectedSlot state;
         conversationHistory := conversationHistory state; startTime := startTime state;
         lastActivity := lastActivity state |}
  | SetInsuranceInfo i =>
      {| callId := callId state; step := step state;
         clientVerified := clientVerified state; clientInfo := clientInfo state;
         insuranceVerified := insuranceVerified state; insuranceInfo := Some i;
         appointmentType := appointmentType state;
         preferredProvider := preferredProvider state;
         preferredDate := preferredDate state; preferredTime := preferredTime state;
         availableSlots := availableSlots state; selectedSlot := selectedSlot state;
         conversationHistory := conversationHistory state; startTime := startTime state;
         lastActivity := lastActivity state |}
  | SetAppointmentType t =>
      {| callId := callId state; step := step state;
         clientVerified := clientVerified state; clientInfo := clientInfo state;
         insuranceVerified := insuranceVerified state;
         insuranceInfo := insuranceInfo state; appointmentType := Some t;
         preferredProvider := preferredProvider state;
         preferredDate := preferredDate state; preferredTime := preferredTime state;
         availableSlots := availableSlots state; selectedSlot := selectedSlot state;
         conversationHistory := conversationHistory state; startTime := startTime state;
         lastActivity := lastActivity state |}
  | SetPreferredProvider p =>
      {| callId := callId state; step := step state;
         clientVerified := clientVerified state; clientInfo := clientInfo state;
         insuranceVerified := insuranceVerified state;
         insuranceInfo := insuranceInfo state; appointmentType := appointmentType state;
         preferredProvider := Some p; preferredDate := preferredDate state;
         preferredTime := preferredTime state; availableSlots := availableSlots state;
         selectedSlot := selectedSlot state;
         conversationHistory := conversationHistory state; startTime := startTime state;
         lastActivity := lastActivity state |}
  | SetPreferredDate d =>
      {| callId := callId state; step := step state;
         clientVerified := clientVerified state; clientInfo := clientInfo state;
         insuranceVerified := insuranceVerified state;
         insuranceInfo := insuranceInfo state; appointmentType := appointmentType state;
         preferredProvider := preferredProvider state; preferredDate := Some d;
         preferredTime := preferredTime state; availableSlots := availableSlots state;
         selectedSlot := selectedSlot state;
         conversationHistory := conversationHistory state; startTime := startTime state;
         lastActivity := lastActivity state |}
  | SetPreferredTime t =>
      {| callId := callId state; step := step state;
         clientVerified := clientVerified state; clientInfo := clientInfo state;
         insuranceVerified := insuranceVerified state;
         insuranceInfo := insuranceInfo state; appointmentType := appointmentType state;
         preferredProvider := preferredProvider state;
         preferredDate := preferredDate state; preferredTime := Some t;
         availableSlots := availableSlots state; selectedSlot := selectedSlot state;
         conversationHistory := conversationHistory state; startTime := startTime state;
         lastActivity := lastActivity state |}
  end.

(** [Object.assign(state, updates)]: the properties are copied in order. *)
Definition assign (state : ConversationRecord) (updates : list Update) : ConversationRecord :=
  fold_left assign1 updates state.

Definition setLastActivity (state : ConversationRecord) (t : Z) : ConversationRecord :=
  {| callId := callId state; step := step state; clientVerified := clientVerified state;
     clientInfo := clientInfo state; insuranceVerified := insuranceVerified state;
     insuranceInfo := insuranceInfo state; appointmentType := appointmentType state;
     preferredProvider := preferredProvider state; preferredDate := preferredDate state;
     preferredTime := preferredTime state; availableSlots := availableSlots state;
     selectedSlot := selectedSlot state; conversationHistory := conversationHistory state;
     startTime := startTime state; lastActivity := t |}.

Definition pushHistory (state : ConversationRecord) (e : HistoryEntry) : ConversationRecord :=
  {| callId := callId state; step := step state; clientVerified := clientVerified state;
     clientInfo := clientInfo state; insuranceVerified := insuranceVerified state;
     insuranceInfo := insuranceInfo state; appointmentType := appointmentType state;
     preferredProvider := preferredProvider state; preferredDate := preferredDate state;
     preferredTime := preferredTime state; availableSlots := availableSlots state;
     selectedSlot := selectedSlot state;
     conversationHistory := conversationHistory state ++ [e]; startTime := startTime state;
     lastActivity := lastActivity state |}.

Record AppointmentDetails : Type := {
  ad_type : option string;
  ad_provider : string;
  ad_date : option string;
  ad_time : option string;
  ad_copay : Z
}.

(** A step-specific property of a response. *)
Inductive ResponseField : Type :=
| F_clientInfo (c : ClientInfo)
| F_appointmentType (t : string)
| F_providers (ps : list Provider)
| F_provider (p : Provider)
| F_availableDates (ds : list string)
| F_date (d : string)
| F_availableTimes (ts : list string)
| F_selectedSlot (s : Slot)
| F_insuranceInfo (i : InsuranceResult)
| F_appointmentDetails (d : AppointmentDetails)
| F_appointmentId (a : string)
| F_confirmationSent (b : bool)
| F_error (e : option string).

(** The object a handler returns: [message] and [nextStep] are always
    there, the flags and [options] when the handler sets them, then the
    step-specific properties in the order of the literal. *)
Record Response : Type := {
  message : string;
  nextStep : string;
  requiresVerification : option bool;
  requiresTransfer : option bool;
  selfPayOption : option bool;
  options : option (list string);
  extra : list ResponseField
}.

Definition reply (message nextStep : string) : Response :=
  {| message := message; nextStep := nextStep; requiresVerification := None;
     requiresTransfer := None; selfPayOption := None; options := None; extra := [] |}.

Definition withRequiresVerification (b : bool) (r : Response) : Response :=
  {| message := message r; nextStep := nextStep r; requiresVerification := Some b;
     requiresTransfer := requiresTransfer r; selfPayOption := selfPayOption r;
     options := options r; extra := extra r |}.

Definition withRequiresTransfer (b : bool) (r : Response) : Response :=
  {| message := message r; nextStep := nextStep r;
     requiresVerification := requiresVerification r; requiresTransfer := Some b;
     selfPayOption := selfPayOption r; options := options r; extra := extra r |}.

Definition withSelfPayOption (b : bool) (r : Response) : Response :=
  {| message := message r; nextStep := nextStep r;
     requiresVerification := requiresVerification r;
     requiresTransfer := requiresTransfer r; selfPayOption := Some b;
     options := options r; extra := extra r |}.

Definition withOptions (os : list string) (r : Response) : Response :=
  {| message := message r; nextStep := nextStep r;
     requiresVerification := requiresVerification r;
     requiresTransfer := requiresTransfer r; selfPayOption := selfPayOption r;
     options := Some os; extra := extra r |}.

Definition withExtra (fs : list ResponseField) (r : Response) : Response :=
  {| message := message r; nextStep := nextStep r;
     requiresVerification := requiresVerification r;
     requiresTransfer := requiresTransfer r; selfPayOption := selfPayOption r;
     options := options r; extra := fs |}.

(** ** Results and the store monad *)

Inductive Result (A : Type) : Type :=
| Ok (a : A)
| Throw.

Arguments Ok {A} a.
Arguments Throw {A}.

(** A computation on the store that returns or throws; the store it leaves
    behind is kept in both cases. *)
Definition M (A : Type) : Type := Store -> Store * Result A.

Definition ret {A} (a : A) : M A := fun store => (store, Ok a).

Definition bind {A B} (m : M A) (f : A -> M B) : M B :=
  fun store =>
    match m store with
    | (store', Ok a) => f a store'
    | (store', Throw) => (store', Throw)
    end.

Definition lift {A} (r : Result A) : M A := fun store => (store, r).

Notation "'let!' x ':=' m 'in' k" := (bind m (fun x => k))
  (at level 10, x name, m at level 100, k at level 200).

(** ** The conversation state store *)

(** [initializeConversation(callId)]: the record of a new call; an earlier
    record under the same identifier is replaced. *)
Definition initialState (env : Env) (callId : string) : ConversationRecord :=
  {| callId := callId; step := "greeting"; clientVerified := false; clientInfo := None;
     insuranceVerified := false; insuranceInfo := None; appointmentType := None;
     preferredProvider := None; preferredDate := None; preferredTime := None;
     availableSlots := []; selectedSlot := None; conversationHistory := [];
     startTime := now env; lastActivity := now env |}.

Definition initializeConversation (env : Env) (callId : string) : M ConversationRecord :=
  fun store => let state := initialState env callId in (<[callId := state]> store, Ok state).

(** [getConversationState(callId)] *)
Definition getConversationState (callId : string) : M (option ConversationRecord) :=
  fun store => (store, Ok (store !! callId)).

(** [updateConversationState(callId, updates)] *)
Definition updateConversationState (env : Env) (callId : string) (updates : list Update)
  : M unit :=
  fun store =>
    match store !! callId with
    | Some state =>
        (<[callId := setLastActivity (assign state updates) (now env)]> store, Ok tt)
    | None => (store, Ok tt)
    end.

(** [addToHistory(callId, role, content)] *)
Definition addToHistory (env : Env) (callId role content : string) : M unit :=
  fun store =>
    match store !! callId with
    | Some state =>
        (<[callId := pushHistory state
                       {| role := role; content := content; timestamp := now env |}]> store,
         Ok tt)
    | None => (store, Ok tt)
    end.

(** [cleanupConversation(callId)] *)
Definition cleanupConversation (callId : string) : M unit :=
  fun store => (delete callId store, Ok tt).

(** [state.f] for the [state] a handler got from [getConversationState]:
    the record is the object held by the store, so a read sees the writes
    made since; reading a property of [undefined] throws. *)
Definition stateField {A} (callId : string) (f : ConversationRecord -> A) : M A :=
  fun store =>
    match store !! callId with
    | Some state => (store, Ok (f state))
    | None => (store, Throw)
    end.

(** ** Field extractors *)

(** [detectIntent(message)] *)
Definition detectIntent (message : string) : string :=
  let lowerMessage := JS.toLowerCase message in
  if JS.includes lowerMessage "schedule" || JS.includes lowerMessage "book"
     || JS.includes lowerMessage "appointment" then "schedule"
  else if JS.includes lowerMessage "reschedule" || JS.includes lowerMessage "change"
  then "reschedule"
  else if JS.includes lowerMessage "cancel" then "cancel"
  else "general".

Record VerificationData : Type := {
  phoneNumber : option string;
  dateOfBirth : option string
}.

(** [extractVerificationData(message)] *)
Definition extractVerificationData (message : string) : VerificationData :=
  {| phoneNumber := Regex.exec Regex.phoneRegex message;
     dateOfBirth := Regex.exec Regex.dateRegex message |}.

Record VerificationResult : Type := {
  vr_verified : bool;
  vr_clientInfo : ClientInfo
}.

(** [simulateVerification(verificationData)] *)
Definition simulateVerification (verificationData : VerificationData) : VerificationResult :=
  {| vr_verified := true;
     vr_clientInfo := {| ci_id := "client_001"; ci_name := "John Doe";
                         ci_phone := phoneNumber verificationData;
                         ci_dateOfBirth := dateOfBirth verificationData |} |}.

(** [detectAppointmentType(message)] *)
Definition detectAppointmentType (message : string) : option string :=
  let lowerMessage := JS.toLowerCase message in
  if JS.includes lowerMessage "comprehensive" || JS.includes lowerMessage "evaluation"
  then Some "comprehensive_evaluation"
  else if JS.includes lowerMessage "follow" || JS.includes lowerMessage "follow-up"
  then Some "follow_up"
  else if JS.includes lowerMessage "ketamine" then Some "ketamine_consultation"
  else None.

(** [detectDateSelection(message)] *)
Definition detectDateSelection (message : string) : option string :=
  match Regex.exec Regex.dateRegex message with
  | Some m => Some (Moment.formatDate (Moment.parse m))
  | None => None
  end.

(** [detectTimeSelection(message)] *)
Definition detectTimeSelection (message : string) : option string :=
  Regex.exec Regex.timeRegex message.

(** [checkTimeAvailability()]: [Math.random() > 0.3] *)
Definition checkTimeAvailability (env : Env) : bool :=
  negb (Qle_bool (random env) (3 # 10)).

Definition acceptedProviders : list string :=
  ["aetna"; "blue cross blue shield"; "cigna"; "medicare"; "tricare"].

(** [extractInsuranceInfo(message).provider] *)
Definition extractInsuranceInfo (message : string) : option string :=
  let lowerMessage := JS.toLowerCase message in
  find (fun provider => JS.includes lowerMessage provider) acceptedProviders.

(** [isAcceptedInsurance(provider)] *)
Definition isAcceptedInsurance (provider : string) : bool :=
  existsb (fun accepted => JS.includes (JS.toLowerCase provider) accepted) acceptedProviders.

(** [simulateInsuranceVerification(insuranceInfo)] *)
Definition simulateInsuranceVerification (provider : string) : InsuranceResult :=
  {| iv_verified := true; iv_provider := provider; iv_copay := 25;
     iv_deductible := 1000; iv_deductibleMet := false |}.

(** [detectConfirmation(message)] *)
Definition detectConfirmation (message : string) : option string :=
  let lowerMessage := JS.toLowerCase message in
  if JS.includes lowerMessage "yes" || JS.includes lowerMessage "correct"
     || JS.includes lowerMessage "right" then Some "yes"
  else if JS.includes lowerMessage "no" || JS.includes lowerMessage "incorrect"
          || JS.includes lowerMessage "wrong" then Some "no"
  else None.

Record AppointmentResult : Type := {
  ar_success : bool;
  ar_appointmentId : string;
  ar_message : string;
  ar_error : option string
}.

(** [createAppointment()] *)
Definition createAppointment (env : Env) : AppointmentResult :=
  {| ar_success := true; ar_appointmentId := "apt_" +:+ JS.numToString (now env);
     ar_message := "Appointment created successfully"; ar_error := None |}.

(** ** Providers, dates and slots *)

(** [this.providerSchedules.<id>.schedule]: throws when the entry is missing. *)
Definition scheduleOf (this : Config) (id : string)
  : Result (option (gmap string DaySchedule)) :=
  match providerSchedules this !! id with
  | Some schedule => Ok schedule
  | None => Throw
  end.

(** [getAvailableProviders(appointmentType)] *)
Definition getAvailableProviders (this : Config) (appointmentType : option string)
  : Result (list Provider) :=
  match scheduleOf this "charles_maddix" with
  | Throw => Throw
  | Ok s1 =>
      let providers :=
        [{| pid := "charles_maddix"; pname := "Charles Maddix"; pschedule := s1 |}] in
      match scheduleOf this "ava_suleiman" with
      | Throw => Throw
      | Ok s2 =>
          let providers :=
            providers ++ [{| pid := "ava_suleiman"; pname := "Ava Suleiman"; pschedule := s2 |}] in
          if decide (appointmentType = Some "follow_up") then
            match scheduleOf this "dr_soto" with
            | Throw => Throw
            | Ok s3 =>
                Ok (providers ++ [{| pid := "dr_soto"; pname := "Dr. Soto"; pschedule := s3 |}])
            end
          else Ok providers
      end
  end.

(** [detectProviderSelection(message, appointmentType)] *)
Definition detectProviderSelection (this : Config) (message : string)
    (appointmentType : option string) : Result (option Provider) :=
  let lowerMessage := JS.toLowerCase message in
  match getAvailableProviders this appointmentType with
  | Throw => Throw
  | Ok providers =>
      Ok (find (fun provider =>
                  JS.includes lowerMessage (JS.toLowerCase (pname provider))
                  || JS.includes lowerMessage (JS.toLowerCase (pid provider)))
               providers)
  end.

(** [provider.schedule[dayOfWeek]]: throws when there is no provider or the
    provider has no schedule; [Ok None] when the day has no entry. *)
Definition daySchedule (provider : option Provider) (dayOfWeek : string)
  : Result (option DaySchedule) :=
  match provider with
  | Some p =>
      match pschedule p with
      | Some schedule => Ok (schedule !! dayOfWeek)
      | None => Throw
      end
  | None => Throw
  end.

(** The loop of [getAvailableDates]: days [i .. 30] after [today]. *)
Fixpoint datesLoop (provider : option Provider) (today : Moment.moment) (n : nat) (i : Z)
  : Result (list string) :=
  match n with
  | O => Ok []
  | S n' =>
      let date := Moment.addDays today i in
      let dayOfWeek := JS.toLowerCase (Moment.formatWeekday date) in
      match daySchedule provider dayOfWeek with
      | Throw => Throw
      | Ok entry =>
          match datesLoop provider today n' (i + 1) with
          | Throw => Throw
          | Ok dates =>
              Ok (match entry with
                  | Some _ => Moment.formatDate date :: dates
                  | None => dates
                  end)
          end
      end
  end.

(** [moment()]: today *)
Definition today (env : Env) : Moment.moment := Moment.Valid (now env / 86400000).

(** [getAvailableDates(provider)] *)
Definition getAvailableDates (env : Env) (provider : option Provider) : Result (list string) :=
  datesLoop provider (today env) 30 1.

(** [parseInt(s.split(':')[0])] *)
Definition hourOf (s : string) : option Z := JS.parseInt (JS.splitHead ":" s).

(** [`${hour.toString().padStart(2, '0')}:${minute.toString().padStart(2, '0')}`] *)
Definition timeString (hour minute : Z) : string :=
  JS.padStart (JS.numToString hour) 2 "0" +:+ ":" +:+ JS.padStart (JS.numToString minute) 2 "0".

(** [hour >= lunchStart && hour < lunchEnd]; a comparison with [NaN] is false. *)
Definition inLunch (hour : Z) (lunchStart lunchEnd : option Z) : bool :=
  match lunchStart, lunchEnd with
  | Some ls, Some le => (ls <=? hour) && (hour <? le)
  | _, _ => false
  end.

(** The slots of one hour: minutes 0, 15, 30, 45. *)
Definition quarterSlots (hour : Z) : list string :=
  map (timeString hour) [0; 15; 30; 45].

(** The outer loop of [getAvailableTimes], with [n] hours left to visit. *)
Fixpoint hoursLoop (n : nat) (hour : Z) (lunchStart lunchEnd : option Z) : list string :=
  match n with
  | O => []
  | S n' =>
      if inLunch hour lunchStart lunchEnd
      then hoursLoop n' (hour + 1) lunchStart lunchEnd
      else quarterSlots hour ++ hoursLoop n' (hour + 1) lunchStart lunchEnd
  end.

(** [moment(date)] for a date that may be [null] *)
Definition momentOf (date : option string) : Moment.moment :=
  match date with
  | Some d => Moment.parse d
  | None => Moment.Invalid
  end.

(** [getAvailableTimes(provider, date)] *)
Definition getAvailableTimes (this : Config) (provider : option Provider)
    (date : option string) : Result (list string) :=
  let dayOfWeek := JS.toLowerCase (Moment.formatWeekday (momentOf date)) in
  match daySchedule provider dayOfWeek with
  | Throw => Throw
  | Ok None => Ok []
  | Ok (Some schedule) =>
      match start schedule, end_ schedule with
      | Some st, Some en =>
          let startHour := hourOf st in
          let endHour := hourOf en in
          let lunchStart := hourOf (lunchBreakStart this) in
          let lunchEnd := hourOf (lunchBreakEnd this) in
          match startHour, endHour with
          | Some sh, Some eh => Ok (hoursLoop (Z.to_nat (eh - sh)) sh lunchStart lunchEnd)
          | _, _ => Ok []
          end
      | _, _ => Throw
      end
  end.

(** ** Step handlers *)

(** [handleGreeting(callId, userMessage)] *)
Definition handleGreeting (env : Env) (callId userMessage : string) : M Response :=
  let intent := detectIntent userMessage in
  if String.eqb intent "schedule" then
    let! _ := updateConversationState env callId [SetStep "verification"] in
    ret (withRequiresVerification true
           (reply "Hello! I'm Matt from The Practice psychiatric wellness clinic. I'd be happy to help you schedule an appointment. For your security and HIPAA compliance, I need to verify your identity. Could you please provide your phone number and date of birth?"
                  "verification"))
  else if String.eqb intent "reschedule" then
    let! _ := updateConversationState env callId [SetStep "verification"] in
    ret (withRequiresVerification true
           (reply "Hello! I'm Matt from The Practice. I can help you reschedule your appointment. For your security, I need to verify your identity first. Could you please provide your phone number and date of birth?"
                  "verification"))
  else if String.eqb intent "cancel" then
    let! _ := updateConversationState env callId [SetStep "verification"] in
    ret (withRequiresVerification true
           (reply "Hello! I'm Matt from The Practice. I can help you cancel your appointment. For your security, I need to verify your identity first. Could you please provide your phone number and date of birth?"
                  "verification"))
  else
    ret (withOptions ["Schedule appointment"; "Reschedule appointment"; "Cancel appointment"]
           (reply "Hello! I'm Matt from The Practice psychiatric wellness clinic. How can I help you today? I can assist with scheduling, rescheduling, or canceling appointments."
                  "greeting")).

(** [handleVerification(callId, userMessage)] *)
Definition handleVerification (env : Env) (callId userMessage : string) : M Response :=
  let verificationData := extractVerificationData userMessage in
  match phoneNumber verificationData, dateOfBirth verificationData with
  | Some _, Some _ =>
      let verificationResult := simulateVerification verificationData in
      if vr_verified verificationResult then
        let! _ := updateConversationState env callId
                    [SetClientVerified true;
                     SetClientInfo (vr_clientInfo verificationResult);
                     SetStep "appointment_type"] in
        ret (withExtra [F_clientInfo (vr_clientInfo verificationResult)]
              (withOptions ["Comprehensive evaluation (60 minutes)"; "Follow-up (15 minutes)";
                            "Ketamine consultation (30 minutes)"]
                (reply ("Thank you, " +:+ ci_name (vr_clientInfo verificationResult)
                        +:+ ". I've verified your identity. What type of appointment would you like to schedule?")
                       "appointment_type")))
      else
        ret (withRequiresTransfer true
              (reply "I'm sorry, but I couldn't verify your identity with the information provided. For your security, I cannot access your information. Would you like me to transfer you to our front desk?"
                     "verification_failed"))
  | _, _ =>
      ret (withRequiresVerification true
            (reply "I need both your phone number and date of birth to verify your identity. Please provide both pieces of information."
                   "verification"))
  end.

(** [handleAppointmentType(callId, userMessage)] *)
Definition handleAppointmentType (this : Config) (env : Env) (callId userMessage : string)
  : M Response :=
  match detectAppointmentType userMessage with
  | None =>
      ret (withOptions ["Comprehensive evaluation"; "Follow-up"; "Ketamine consultation"]
            (reply "I didn't catch that. What type of appointment would you like? You can choose from: Comprehensive evaluation (60 minutes), Follow-up (15 minutes), or Ketamine consultation (30 minutes)."
                   "appointment_type"))
  | Some appointmentType =>
      let! _ := updateConversationState env callId
                  [SetAppointmentType appointmentType; SetStep "provider_selection"] in
      let! availableProviders := lift (getAvailableProviders this (Some appointmentType)) in
      ret (withExtra [F_appointmentType appointmentType; F_providers availableProviders]
            (withOptions (map pname availableProviders)
              (reply ("Great! You've selected a " +:+ appointmentType
                      +:+ ". Which provider would you prefer?")
                     "provider_selection")))
  end.

(** [handleProviderSelection(callId, userMessage)] *)
Definition handleProviderSelection (this : Config) (env : Env) (callId userMessage : string)
  : M Response :=
  let! type := stateField callId appointmentType in
  let! selectedProvider := lift (detectProviderSelection this userMessage type) in
  match selectedProvider with
  | None =>
      let! type := stateField callId appointmentType in
      let! availableProviders := lift (getAvailableProviders this type) in
      ret (withExtra [F_providers availableProviders]
            (withOptions (map pname availableProviders)
              (reply "I didn't catch that. Which provider would you prefer?"
                     "provider_selection")))
  | Some selectedProvider =>
      let! _ := updateConversationState env callId
                  [SetPreferredProvider selectedProvider; SetStep "date_selection"] in
      let! availableDates := lift (getAvailableDates env (Some selectedProvider)) in
      ret (withExtra [F_provider selectedProvider; F_availableDates availableDates]
            (withOptions (firstn 5 availableDates)
              (reply ("Perfect! You've selected " +:+ pname selectedProvider
                      +:+ ". What date would work best for you?")
                     "date_selection")))
  end.

(** [handleDateSelection(callId, userMessage)] *)
Definition handleDateSelection (this : Config) (env : Env) (callId userMessage : string)
  : M Response :=
  match detectDateSelection userMessage with
  | None =>
      let! provider := stateField callId preferredProvider in
      let! availableDates := lift (getAvailableDates env provider) in
      ret (withExtra [F_availableDates availableDates]
            (withOptions (firstn 5 availableDates)
              (reply "I didn't catch that date. What date would work best for you?"
                     "date_selection")))
  | Some selectedDate =>
      let! _ := updateConversationState env callId
                  [SetPreferredDate selectedDate; SetStep "time_selection"] in
      let! provider := stateField callId preferredProvider in
      let! availableTimes := lift (getAvailableTimes this provider (Some selectedDate)) in
      ret (withExtra [F_date selectedDate; F_availableTimes availableTimes]
            (withOptions (firstn 5 availableTimes)
              (reply ("Great! You've selected " +:+ selectedDate
                      +:+ ". What time would work best for you?")
                     "time_selection")))
  end.

(** The re-prompt of [handleTimeSelection] with the times computed afresh. *)
Definition offerTimes (this : Config) (callId message : string) : M Response :=
  let! provider := stateField callId preferredProvider in
  let! date := stateField callId preferredDate in
  let! availableTimes := lift (getAvailableTimes this provider date) in
  ret (withExtra [F_availableTimes availableTimes]
        (withOptions (firstn 5 availableTimes) (reply message "time_selection"))).

(** [handleTimeSelection(callId, userMessage)] *)
Definition handleTimeSelection (this : Config) (env : Env) (callId userMessage : string)
  : M Response :=
  match detectTimeSelection userMessage with
  | None =>
      offerTimes this callId "I didn't catch that time. What time would work best for you?"
  | Some selectedTime =>
      let! _ := stateField callId preferredProvider in
      let isAvailable := checkTimeAvailability env in
      if negb isAvailable then
        offerTimes this callId
          "I'm sorry, that time slot is no longer available. Here are the available times:"
      else
        let! _ := updateConversationState env callId
                    [SetPreferredTime selectedTime; SetStep "insurance_verification"] in
        let! date := stateField callId preferredDate in
        let! provider := stateField callId preferredProvider in
        let! type := stateField callId appointmentType in
        ret (withExtra [F_selectedSlot {| slot_provider := provider; slot_date := date;
                                          slot_time := selectedTime; slot_type := type |}]
              (reply ("Perfect! You've selected " +:+ selectedTime +:+ " on "
                      +:+ JS.showNullable date
                      +:+ ". Now I need to verify your insurance information. What insurance provider do you have?")
                     "insurance_verification"))
  end.

(** [handleInsuranceVerification(callId, userMessage)] *)
Definition handleInsuranceVerification (env : Env) (callId userMessage : string)
  : M Response :=
  match extractInsuranceInfo userMessage with
  | None =>
      ret (withOptions ["Aetna"; "Blue Cross Blue Shield"; "Cigna"; "Medicare"; "Tricare"]
            (reply "What insurance provider do you have? We accept Aetna, Blue Cross Blue Shield, Cigna, Medicare, and Tricare."
                   "insurance_verification"))
  | Some provider =>
      if negb (isAcceptedInsurance provider) then
        ret (withOptions ["Yes, self-pay"; "No, let me check my insurance"]
              (withSelfPayOption true
                (reply ("I'm sorry, but we don't accept " +:+ provider
                        +:+ ". We accept Aetna, Blue Cross Blue Shield, Cigna, Medicare, and Tricare. Would you like to proceed with self-pay?")
                       "insurance_verification")))
      else
        let verificationResult := simulateInsuranceVerification provider in
        if iv_verified verificationResult then
          let! _ := updateConversationState env callId
                      [SetInsuranceVerified true; SetInsuranceInfo verificationResult;
                       SetStep "confirmation"] in
          let! type := stateField callId appointmentType in
          let! preferred := stateField callId preferredProvider in
          match preferred with
          | None => lift Throw
          | Some preferred =>
              let! date := stateField callId preferredDate in
              let! time := stateField callId preferredTime in
              ret (withExtra
                     [F_insuranceInfo verificationResult;
                      F_appointmentDetails
                        {| ad_type := type; ad_provider := pname preferred; ad_date := date;
                           ad_time := time; ad_copay := iv_copay verificationResult |}]
                    (reply ("Great! I've verified your " +:+ provider
                            +:+ " insurance. Your copay will be $"
                            +:+ JS.numToString (iv_copay verificationResult)
                            +:+ ". Let me confirm your appointment details: "
                            +:+ JS.showNullable type +:+ " with " +:+ pname preferred
                            +:+ " on " +:+ JS.showNullable date +:+ " at "
                            +:+ JS.showNullable time +:+ ". Is this correct?")
                           "confirmation"))
          end
        else
          ret (withOptions ["Self-pay"; "Call back later"]
                (withSelfPayOption true
                  (reply ("I'm having trouble verifying your " +:+ provider
                          +:+ " insurance. Would you like to proceed with self-pay, or would you prefer to call back later?")
                         "insurance_verification")))
  end.

(** [handleConfirmation(callId, userMessage)] *)
Definition handleConfirmation (env : Env) (callId userMessage : string) : M Response :=
  let confirmation := detectConfirmation userMessage in
  if decide (confirmation = Some "yes") then
    let appointmentResult := createAppointment env in
    if ar_success appointmentResult then
      let! _ := updateConversationState env callId [SetStep "completed"] in
      ret (withExtra [F_appointmentId (ar_appointmentId appointmentResult);
                      F_confirmationSent true]
            (reply "Perfect! Your appointment has been scheduled. You'll receive a confirmation email and text message. Is there anything else I can help you with?"
                   "completed"))
    else
      ret (withExtra [F_error (ar_error appointmentResult)]
            (reply "I'm sorry, there was an issue scheduling your appointment. Let me try again or would you prefer to speak with our front desk?"
                   "confirmation"))
  else if decide (confirmation = Some "no") then
    ret (withOptions ["Change provider"; "Change date"; "Change time"; "Change appointment type"]
          (reply "No problem! Let me know what you'd like to change about your appointment."
                 "modification"))
  else
    ret (withOptions ["Yes"; "No"]
          (reply "I didn't catch that. Is the appointment information correct?"
                 "confirmation")).

(** [handleGeneralInquiry()] *)
Definition handleGeneralInquiry : M Response :=
  ret (withOptions ["Schedule appointment"; "Reschedule appointment"; "Cancel appointment"]
        (reply "I'm here to help with appointment scheduling. Would you like to schedule, reschedule, or cancel an appointment?"
               "greeting")).

(** [getErrorResponse()] *)
Definition getErrorResponse : Response :=
  withRequiresTransfer true
    (reply "I'm sorry, I'm having trouble processing your request. Let me transfer you to our front desk for assistance."
           "error").

(** ** The dialogue driver *)

(** The [switch (state.step)] of [processMessage]. The class defines no
    [handleRescheduling] and no [handleCancellation]: calling them throws. *)
Definition dispatch (this : Config) (env : Env) (step callId userMessage : string)
  : M Response :=
  if String.eqb step "greeting" then handleGreeting env callId userMessage
  else if String.eqb step "verification" then handleVerification env callId userMessage
  else if String.eqb step "appointment_type"
  then handleAppointmentType this env callId userMessage
  else if String.eqb step "provider_selection"
  then handleProviderSelection this env callId userMessage
  else if String.eqb step "date_selection"
  then handleDateSelection this env callId userMessage
  else if String.eqb step "time_selection"
  then handleTimeSelection this env callId userMessage
  else if String.eqb step "insurance_verification"
  then handleInsuranceVerification env callId userMessage
  else if String.eqb step "confirmation" then handleConfirmation env callId userMessage
  else if String.eqb step "rescheduling" then lift Throw
  else if String.eqb step "cancellation" then lift Throw
  else handleGeneralInquiry.

(** The body of the [try] block of [processMessage]. *)
Definition processMessageBody (this : Config) (env : Env) (callId userMessage : string)
  : M Response :=
  let! state := getConversationState callId in
  match state with
  | None => ret getErrorResponse
  | Some state =>
      let! _ := addToHistory env callId "user" userMessage in
      let! response := dispatch this env (step state) callId userMessage in
      let! _ := addToHistory env callId "agent" (message response) in
      ret response
  end.

(** [processMessage(callId, userMessage)]: the [catch] turns a throw into
    the error response; the store stays as the throw left it. *)
Definition processMessage (this : Config) (env : Env) (callId userMessage : string)
    (store : Store) : Store * Response :=
  match processMessageBody this env callId userMessage store with
  | (store', Ok response) => (store', response)
  | (store', Throw) => (store', getErrorResponse)
  end.

(** ** Vocabulary of the properties *)

Definition userEntry (env : Env) (userMessage : string) : HistoryEntry :=
  {| role := "user"; content := userMessage; timestamp := now env |}.

Definition agentEntry (env : Env) (response : Response) : HistoryEntry :=
  {| role := "agent"; content := message response; timestamp := now env |}.

(** The transition table: the one write a handler may make at each step. *)
Inductive stepWrite : string -> list Update -> Prop :=
| W_greeting : stepWrite "greeting" [SetStep "verification"]
| W_verification ci :
    stepWrite "verification"
      [SetClientVerified true; SetClientInfo ci; SetStep "appointment_type"]
| W_appointment_type t :
    stepWrite "appointment_type" [SetAppointmentType t; SetStep "provider_selection"]
| W_provider_selection p :
    stepWrite "provider_selection" [SetPreferredProvider p; SetStep "date_selection"]
| W_date_selection d :
    stepWrite "date_selection" [SetPreferredDate d; SetStep "time_selection"]
| W_time_selection t :
    stepWrite "time_selection" [SetPreferredTime t; SetStep "insurance_verification"]
| W_insurance_verification i :
    stepWrite "insurance_verification"
      [SetInsuranceVerified true; SetInsuranceInfo i; SetStep "confirmation"]
| W_confirmation : stepWrite "confirmation" [SetStep "completed"].

(** What a handler run at step [s] on the record [st] did to the store:
    nothing, or one write of the transition table. *)
Definition effect (s : string) (env : Env) (c : string) (st : ConversationRecord)
    (store : Store) (out : Store * Result Response) : Prop :=
  fst out = store \/
  exists us, stepWrite s us /\
             fst out = <[c := setLastActivity (assign st us) (now env)]> store.

(** The record a handler leaves, from the record [st] it was started on. *)
Inductive afterHandler (env : Env) (st : ConversationRecord) : ConversationRecord -> Prop :=
| no_write : afterHandler env st st
| one_write us :
    stepWrite (step st) us ->
    afterHandler env st (setLastActivity (assign st us) (now env)).

(** Position of a step on the scheduling path; any other name counts as 0. *)
Definition stage (s : string) : nat :=
  if String.eqb s "verification" then 1
  else if String.eqb s "appointment_type" then 2
  else if String.eqb s "provider_selection" then 3
  else if String.eqb s "date_selection" then 4
  else if String.eqb s "time_selection" then 5
  else if String.eqb s "insurance_verification" then 6
  else if String.eqb s "confirmation" then 7
  else if String.eqb s "completed" then 8
  else 0.

(** A slot selection has been made: provider, date and time are chosen. *)
Definition slotChosen (st : ConversationRecord) : Prop :=
  is_Some (preferredProvider st) /\ is_Some (preferredDate st)
  /\ is_Some (preferredTime st).

(** The fields a record has gathered agree with how far its step is. *)
Definition onTrack (st : ConversationRecord) : Prop :=
  ((2 <= stage (step st))%nat -> clientVerified st = true) /\
  ((4 <= stage (step st))%nat -> is_Some (preferredProvider st)) /\
  ((5 <= stage (step st))%nat -> is_Some (preferredDate st)) /\
  ((6 <= stage (step st))%nat -> is_Some (preferredTime st)) /\
  (insuranceVerified st = true -> (7 <= stage (step st))%nat).

(** Stores built from the empty one by starting calls, processing
    messages and ending calls. *)
Inductive reachable (this : Config) : Store -> Prop :=
| reach_empty : reachable this ∅
| reach_initialize env c store :
    reachable this store -> reachable this (fst (initializeConversation env c store))
| reach_message env c userMessage store :
    reachable this store ->
    reachable this (fst (processMessage this env c userMessage store))
| reach_cleanup c store :
    reachable this store -> reachable this (fst (cleanupConversation c store)).

(** A run of turns of one call: the final store and the responses. *)
Fixpoint runTurns (this : Config) (c : string) (turns : list (Env * string))
    (store : Store) : Store * list Response :=
  match turns with
  | [] => (store, [])
  | (env, userMessage) :: rest =>
      let (store', response) := processMessage this env c userMessage store in
      let (store'', responses) := runTurns this c rest store' in
      (store'', response :: responses)
  end.

(** No turn of the run ends in the [catch] of the driver. *)
Fixpoint noThrow (this : Config) (c : string) (turns : list (Env * string))
    (store : Store) : bool :=
  match turns with
  | [] => true
  | (env, userMessage) :: rest =>
      match processMessageBody this env c userMessage store with
      | (store', Ok _) => noThrow this c rest store'
      | (_, Throw) => false
      end
  end.

(** The transcript of a run: each utterance followed by the reply to it. *)
Fixpoint transcript (turns : list (Env * string)) (responses : list Response)
  : list (string * string) :=
  match turns, responses with
  | (_, userMessage) :: turns', response :: responses' =>
      ("user", userMessage) :: ("agent", message response) :: transcript turns' responses'
  | _, _ => []
  end.

Definition speaker (e : HistoryEntry) : string * string := (role e, content e).

(** The intents for which the greeting asks for identification. *)
Definition asksForService (intent : string) : bool :=
  String.eqb intent "schedule" || String.eqb intent "reschedule"
  || String.eqb intent "cancel".

(** The body of the [try] block of [processMessage] ends in a throw. *)
Definition throws (this : Config) (env : Env) (c userMessage : string) (store : Store)
  : bool :=
  match snd (processMessageBody this env c userMessage store) with
  | Throw => true
  | Ok _ => false
  end.

(** Minutes since midnight of a text [H:MM]. *)
Definition minutesOf (s : string) : option Z :=
  match JS.parseInt (JS.splitHead ":" s),
        JS.parseInt (substring (S (String.length (JS.splitHead ":" s))) (String.length s) s)
  with
  | Some h, Some m => Some (60 * h + m)
  | _, _ => None
  end.

(** ** Sample data

    The provider schedules of the deployment guide, a clock reading on
    Thursday 2024-01-11, and a call that books Monday 2024-01-15. *)

Definition hours (st en : string) : DaySchedule := {| start := Some st; end_ := Some en |}.

Definition sampleConfig : Config :=
  {| providerSchedules :=
       <["charles_maddix" :=
           Some (<["monday" := hours "10:30" "18:00"]>
                 (<["tuesday" := hours "10:30" "18:00"]>
                  (<["wednesday" := hours "10:30" "18:00"]>
                   (<["thursday" := hours "10:30" "18:00"]> ∅))))]>
       (<["ava_suleiman" := Some (<["tuesday" := hours "10:30" "18:00"]> ∅)]>
        (<["dr_soto" :=
             Some (<["monday" := hours "16:00" "18:00"]>
                   (<["tuesday" := hours "16:00" "18:00"]>
                    (<["wednesday" := hours "16:00" "18:00"]>
                     (<["thursday" := hours "16:00" "18:00"]> ∅))))]> ∅));
     lunchBreakStart := "13:00";
     lunchBreakEnd := "14:00" |}.

Definition sampleEnv : Env := {| now := 1704931200000; random := 1 # 2 |}.

Definition laterEnv : Env := {| now := 1704931260000; random := 1 # 2 |}.

Definition sampleCall : string := "call_001".

Definition freshStore : Store := fst (initializeConversation sampleEnv sampleCall ∅).

Definition sampleTurns : list (Env * string) :=
  map (pair laterEnv)
    [ "I want to schedule an appointment";
      "My phone is 904-123-4567 and DOB is 03/15/1985";
      "I need a follow-up";
      "Charles Maddix please";
      "2024-01-15";
      "10:30";
      "I have Aetna";
      "yes" ].

(** The store after the first [n] turns of the sample call. *)
Definition storeAfter (n : nat) : Store :=
  fst (runTurns sampleConfig sampleCall (firstn n sampleTurns) freshStore).

(** The record of the sample call after [n] turns. *)
Definition recordAfter (n : nat) : ConversationRecord :=
  default (initialState sampleEnv sampleCall) (storeAfter n !! sampleCall).

Definition charlesMaddix : Provider :=
  {| pid := "charles_maddix"; pname := "Charles Maddix";
     pschedule := Some (<["monday" := hours "10:30" "18:00"]> ∅) |}.

(** ** Statements that the code does not satisfy

    Two sentences of the specification, written out as they stand, to be
    refuted on the sample call. *)

(** "If a step handler throws, the stored record is left exactly as it was
    before the message arrived." *)
Definition throw_leaves_record_untouched : Prop :=
  forall this env c msg (store : Store) st,
    store !! c = Some st ->
    throws this env c msg store = true ->
    snd (processMessage this env c msg store) = getErrorResponse /\
    fst (processMessage this env c msg store) !! c = Some st.

(** "A parsed time that is available sets both [preferredTime] and
    [selectedSlot] in the stored record and advances the step." *)
Definition time_selection_stores_slot : Prop :=
  forall this env c msg (store : Store) st t,
    store !! c = Some st ->
    step st = "time_selection" ->
    detectTimeSelection msg = Some t ->
    checkTimeAvailability env = true ->
    exists st', fst (processMessage this env c msg store) !! c = Some st' /\
      preferredTime st' = Some t /\ is_Some (selectedSlot st') /\
      step st' = "insurance_verification".

(** The configuration has the entries [getAvailableProviders] reads. *)
Definition providersConfigured (this : Config) (appointmentType : option string) : Prop :=
  is_Some (providerSchedules this !! "charles_maddix") /\
  is_Some (providerSchedules this !! "ava_suleiman") /\
  (appointmentType = Some "follow_up" -> is_Some (providerSchedules this !! "dr_soto")).

(** ** The transition function

    The dialogue written as a function from a record and an utterance to the
    write the utterance causes, to be compared with what the handlers do to
    the store. *)

(** The step names the [switch] of [processMessage] lists. *)
Definition switchCases : list string :=
  ["greeting"; "verification"; "appointment_type"; "provider_selection"; "date_selection";
   "time_selection"; "insurance_verification"; "confirmation"; "rescheduling";
   "cancellation"].

(** The transition function of the dialogue: the write, if any, that an
    utterance causes on a record, decided by the step of the record and by
    what the extractor of that step finds. *)
Definition stepUpdates (this : Config) (env : Env) (msg : string) (st : ConversationRecord)
  : option (list Update) :=
  let s := step st in
  if String.eqb s "greeting" then
    if asksForService (detectIntent msg) then Some [SetStep "verification"] else None
  else if String.eqb s "verification" then
    match phoneNumber (extractVerificationData msg),
          dateOfBirth (extractVerificationData msg) with
    | Some _, Some _ =>
        Some [SetClientVerified true;
              SetClientInfo (vr_clientInfo (simulateVerification (extractVerificationData msg)));
              SetStep "appointment_type"]
    | _, _ => None
    end
  else if String.eqb s "appointment_type" then
    match detectAppointmentType msg with
    | Some t => Some [SetAppointmentType t; SetStep "provider_selection"]
    | None => None
    end
  else if String.eqb s "provider_selection" then
    match detectProviderSelection this msg (appointmentType st) with
    | Ok (Some p) => Some [SetPreferredProvider p; SetStep "date_selection"]
    | _ => None
    end
  else if String.eqb s "date_selection" then
    match detectDateSelection msg with
    | Some d => Some [SetPreferredDate d; SetStep "time_selection"]
    | None => None
    end
  else if String.eqb s "time_selection" then
    match detectTimeSelection msg with
    | Some t =>
        if checkTimeAvailability env
        then Some [SetPreferredTime t; SetStep "insurance_verification"]
        else None
    | None => None
    end
  else if String.eqb s "insurance_verification" then
    match extractInsuranceInfo msg with
    | Some p =>
        Some [SetInsuranceVerified true; SetInsuranceInfo (simulateInsuranceVerification p);
              SetStep "confirmation"]
    | None => None
    end
  else if String.eqb s "confirmation" then
    if decide (detectConfirmation msg = Some "yes") then Some [SetStep "completed"] else None
  else None.

(** The record after the write, if any. *)
Definition applyStep (env : Env) (st : ConversationRecord) (w : option (list Update))
  : ConversationRecord :=
  match w with
  | Some us => setLastActivity (assign st us) (now env)
  | None => st
  end.

(** The reply, when there is one, satisfies [P]. *)
Definition replySatisfies (P : Response -> Prop) (res : Result Response) : Prop :=
  match res with
  | Ok r => P r
  | Throw => True
  end.

(** A handler run on the record [st] of the call [c] made the write of
    the transition function, and its reply, if any, announces the step the
    record is left at, or the change menu after a refusal at confirmation. *)
Definition handlerSpec (this : Config) (env : Env) (msg c : string)
    (st : ConversationRecord) (store : Store) (out : Store * Result Response) : Prop :=
  fst out = match stepUpdates this env msg st with
            | Some us => <[c := setLastActivity (assign st us) (now env)]> store
            | None => store
            end /\
  replySatisfies
    (fun r => nextStep r = step (applyStep env st (stepUpdates this env msg st)) \/
              (step st = "confirmation" /\ nextStep r = "modification"))
    (snd out).

(** The reply of [handleGeneralInquiry]. *)
Definition generalInquiryResponse : Response :=
  withOptions ["Schedule appointment"; "Reschedule appointment"; "Cancel appointment"]
    (reply "I'm here to help with appointment scheduling. Would you like to schedule, reschedule, or cancel an appointment?"
           "greeting").

(** The steps of the scheduling path. *)
Definition pathSteps : list string :=
  ["greeting"; "verification"; "appointment_type"; "provider_selection"; "date_selection";
   "time_selection"; "insurance_verification"; "confirmation"; "completed"].

(** Exactly the fields of the steps already passed are set, and the two
    slot fields are as the call was started. *)
Definition gathered (st : ConversationRecord) : Prop :=
  In (step st) pathSteps /\
  (clientVerified st = true <-> (2 <= stage (step st))%nat) /\
  (is_Some (clientInfo st) <-> (2 <= stage (step st))%nat) /\
  (is_Some (appointmentType st) <-> (3 <= stage (step st))%nat) /\
  (is_Some (preferredProvider st) <-> (4 <= stage (step st))%nat) /\
  (is_Some (preferredDate st) <-> (5 <= stage (step st))%nat) /\
  (is_Some (preferredTime st) <-> (6 <= stage (step st))%nat) /\
  (insuranceVerified st = true <-> (7 <= stage (step st))%nat) /\
  (is_Some (insuranceInfo st) <-> (7 <= stage (step st))%nat) /\
  selectedSlot st = None /\ availableSlots st = [].

(** The preferred provider, when set, is one of the providers offered for
    the record's appointment type. *)
Definition providerFits (this : Config) (st : ConversationRecord) : Prop :=
  forall p, preferredProvider st = Some p ->
    exists ps, getAvailableProviders this (appointmentType st) = Ok ps /\ In p ps.

(** Every character of the text satisfies [p]. *)
Fixpoint allChars (p : ascii -> bool) (s : string) : bool :=
  match s with
  | EmptyString => true
  | String c s' => p c && allChars p s'
  end.

Definition notColon (c : ascii) : bool := negb (Ascii.eqb c ":").

(** A record at a step whose handler the class does not define, set
    through [updateConversationState] as the test suite sets steps. *)
Definition reschedulingStore : Store :=
  fst (updateConversationState sampleEnv sampleCall [SetStep "rescheduling"] freshStore).

(** The slots of Charles Maddix on Monday 2024-01-15 with the sample
    configuration. *)
Definition mondaySlots : list string :=
  ["10:00"; "10:15"; "10:30"; "10:45"; "11:00"; "11:15"; "11:30"; "11:45";
   "12:00"; "12:15"; "12:30"; "12:45"; "14:00"; "14:15"; "14:30"; "14:45";
   "15:00"; "15:15"; "15:30"; "15:45"; "16:00"; "16:15"; "16:30"; "16:45";
   "17:00"; "17:15"; "17:30"; "17:45"].

(** The next Mondays after the clock reading of the sample. *)
Definition mondayDates : list string :=
  ["2024-01-15"; "2024-01-22"; "2024-01-29"; "2024-02-05"].

(** ** Checks of the primitives on sample inputs *)

Example toLowerCase_ex : JS.toLowerCase "Blue Cross-9" = "blue cross-9".
Proof. reflexivity. Qed.

Example parseInt_ex :
  JS.parseInt "10" = Some 10 /\ JS.parseInt "09" = Some 9 /\
  JS.parseInt "abc" = None /\ JS.parseInt " -7x" = Some (-7) /\
  JS.parseInt "0x1f" = Some 31.
Proof. repeat split. Qed.

Example numToString_ex :
  JS.numToString 0 = "0" /\ JS.numToString 1705 = "1705" /\ JS.numToString (-30) = "-30".
Proof. repeat split. Qed.

Example phoneRegex_ex :
  Regex.exec Regex.phoneRegex "My phone is (904) 123-4567 and DOB is 03/15/1985"
  = Some " (904) 123-4567".
Proof. reflexivity. Qed.

Example dateRegex_ex :
  Regex.exec Regex.dateRegex "My phone is 904-123-4567 and DOB is 03/15/1985"
  = Some "03/15/1985".
Proof. reflexivity. Qed.

Example timeRegex_ex :
  Regex.exec Regex.timeRegex "I want to schedule for 10:30 AM" = Some "10:30" /\
  Regex.exec Regex.timeRegex "around 9 pm please" = Some "9 pm" /\
  Regex.exec Regex.timeRegex "I want to schedule for invalid time" = None.
Proof. repeat split. Qed.

Example moment_iso_ex :
  Moment.formatDate (Moment.parse "2024-01-15") = "2024-01-15" /\
  Moment.formatWeekday (Moment.parse "2024-01-15") = "Monday" /\
  Moment.formatDate (Moment.parse "2024-02-30") = "Invalid date" /\
  Moment.formatDate (Moment.parse "2023-02-29") = "Invalid date".
Proof. repeat split. Qed.

Example moment_host_ex :
  Moment.formatDate (Moment.parse "01/15/2024") = "2024-01-15" /\
  Moment.formatDate (Moment.parse "2024/3/5") = "2024-03-05" /\
  Moment.formatDate (Moment.parse "02/30/2024") = "2024-03-01" /\
  Moment.formatDate (Moment.parse "13/45/2024") = "Invalid date" /\
  Moment.formatWeekday (Moment.parse "Invalid date") = "Invalid date".
Proof. repeat split. Qed.

(** ** The store monad and the store operations *)

Lemma bind_ret_l {A B} (a : A) (k : A -> M B) store : bind (ret a) k store = k a store.
Proof. reflexivity. Qed.

Lemma bind_lift_ok {A B} (a : A) (k : A -> M B) store :
  bind (lift (Ok a)) k store = k a store.
Proof. reflexivity. Qed.

Lemma bind_lift_throw {A B} (k : A -> M B) store :
  bind (lift Throw) k store = (store, Throw).
Proof. reflexivity. Qed.

Lemma bind_update {B} env c us (k : unit -> M B) (store : Store) st :
  store !! c = Some st ->
  bind (updateConversationState env c us) k store
  = k tt (<[c := setLastActivity (assign st us) (now env)]> store).
Proof. intros H. unfold bind, updateConversationState. now rewrite H. Qed.

Lemma bind_stateField {A B} c (f : ConversationRecord -> A) (k : A -> M B)
    (store : Store) st :
  store !! c = Some st -> bind (stateField c f) k store = k (f st) store.
Proof. intros H. unfold bind, stateField. now rewrite H. Qed.

Lemma bind_addToHistory {B} env c r m (k : unit -> M B) (store : Store) st :
  store !! c = Some st ->
  bind (addToHistory env c r m) k store
  = k tt (<[c := pushHistory st {| role := r; content := m; timestamp := now env |}]> store).
Proof. intros H. unfold bind, addToHistory. now rewrite H. Qed.

Ltac step_store :=
  repeat first
    [ rewrite bind_ret_l
    | rewrite bind_lift_ok
    | rewrite bind_lift_throw
    | erewrite bind_update by (first [eassumption | apply lookup_insert_eq])
    | erewrite bind_stateField by (first [eassumption | apply lookup_insert_eq]) ].

Ltac split_handler :=
  repeat (step_store;
          try match goal with
              | |- context [bind (lift ?r) _ _] => destruct r eqn:?
              | |- context [match ?x with _ => _ end] => destruct x eqn:?
              end).

Ltac close_effect :=
  first [ left; reflexivity
        | right; eexists; split; [econstructor | reflexivity] ].

(** ** Every handler makes at most one write, the one of its step *)

Lemma handleGreeting_effect env c msg (store : Store) st :
  store !! c = Some st -> effect "greeting" env c st store (handleGreeting env c msg store).
Proof. intros H. unfold handleGreeting. split_handler; close_effect. Qed.

Lemma handleVerification_effect env c msg (store : Store) st :
  store !! c = Some st ->
  effect "verification" env c st store (handleVerification env c msg store).
Proof. intros H. unfold handleVerification. split_handler; close_effect. Qed.

Lemma handleAppointmentType_effect this env c msg (store : Store) st :
  store !! c = Some st ->
  effect "appointment_type" env c st store (handleAppointmentType this env c msg store).
Proof. intros H. unfold handleAppointmentType. split_handler; close_effect. Qed.

Lemma handleProviderSelection_effect this env c msg (store : Store) st :
  store !! c = Some st ->
  effect "provider_selection" env c st store
    (handleProviderSelection this env c msg store).
Proof. intros H. unfold handleProviderSelection. split_handler; close_effect. Qed.

Lemma handleDateSelection_effect this env c msg (store : Store) st :
  store !! c = Some st ->
  effect "date_selection" env c st store (handleDateSelection this env c msg store).
Proof. intros H. unfold handleDateSelection. split_handler; close_effect. Qed.

Lemma offerTimes_effect s this env c m (store : Store) st :
  store !! c = Some st -> effect s env c st store (offerTimes this c m store).
Proof. intros H. unfold offerTimes. split_handler; close_effect. Qed.

Lemma handleTimeSelection_effect this env c msg (store : Store) st :
  store !! c = Some st ->
  effect "time_selection" env c st store (handleTimeSelection this env c msg store).
Proof.
  intros H. unfold handleTimeSelection.
  destruct (detectTimeSelection msg); [|now apply offerTimes_effect].
  step_store. destruct (negb _); [now apply offerTimes_effect|].
  split_handler; close_effect.
Qed.

Lemma handleInsuranceVerification_effect env c msg (store : Store) st :
  store !! c = Some st ->
  effect "insurance_verification" env c st store
    (handleInsuranceVerification env c msg store).
Proof. intros H. unfold handleInsuranceVerification. split_handler; close_effect. Qed.

Lemma handleConfirmation_effect env c msg (store : Store) st :
  store !! c = Some st ->
  effect "confirmation" env c st store (handleConfirmation env c msg store).
Proof. intros H. unfold handleConfirmation. split_handler; close_effect. Qed.

Lemma dispatch_effect this env s c msg (store : Store) st :
  store !! c = Some st -> effect s env c st store (dispatch this env s c msg store).
Proof.
  intros H. unfold dispatch.
  repeat match goal with
         | |- context [String.eqb s ?k] => destruct (String.eqb_spec s k) as [->|?]
         end;
    eauto using handleGreeting_effect, handleVerification_effect,
      handleAppointmentType_effect, handleProviderSelection_effect,
      handleDateSelection_effect, handleTimeSelection_effect,
      handleInsuranceVerification_effect, handleConfirmation_effect;
    left; reflexivity.
Qed.

(** One turn of the driver on an existing record: the utterance is pushed,
    the handler leaves the record [st2], and the reply is pushed unless the
    handler threw. *)
Lemma processMessageBody_turn this env c msg (store : Store) st :
  store !! c = Some st ->
  exists st2 res,
    afterHandler env (pushHistory st (userEntry env msg)) st2 /\
    processMessageBody this env c msg store
    = match res with
      | Ok r => (<[c := pushHistory st2 (agentEntry env r)]> store, Ok r)
      | Throw => (<[c := st2]> store, Throw)
      end.
Proof.
  intros H. unfold processMessageBody.
  change (bind (getConversationState c) ?k store) with (k (store !! c) store).
  rewrite H. erewrite bind_addToHistory by eassumption.
  fold (userEntry env msg).
  set (st1 := pushHistory st (userEntry env msg)).
  pose proof (dispatch_effect this env (step st) c msg (<[c := st1]> store) st1
                (lookup_insert_eq _ _ _)) as E.
  unfold bind at 1.
  destruct (dispatch this env (step st) c msg (<[c := st1]> store)) as [store2 res].
  unfold effect in E; simpl in E. destruct E as [->|(us & Hw & ->)].
  - exists st1, res. split; [constructor|].
    destruct res as [r|]; [|reflexivity].
    erewrite bind_addToHistory by apply lookup_insert_eq.
    rewrite insert_insert_eq. reflexivity.
  - exists (setLastActivity (assign st1 us) (now env)), res.
    split; [now constructor|].
    rewrite insert_insert_eq.
    destruct res as [r|]; [|reflexivity].
    erewrite bind_addToHistory by apply lookup_insert_eq.
    rewrite insert_insert_eq. reflexivity.
Qed.

Lemma processMessageBody_unknown this env c msg (store : Store) :
  store !! c = None ->
  processMessageBody this env c msg store = (store, Ok getErrorResponse).
Proof.
  intros H. unfold processMessageBody.
  change (bind (getConversationState c) ?k store) with (k (store !! c) store).
  now rewrite H.
Qed.

Lemma processMessage_dispatch this env c msg (store : Store) st :
  store !! c = Some st ->
  processMessage this env c msg store
  = match dispatch this env (step st) c msg
            (<[c := pushHistory st (userEntry env msg)]> store) with
    | (store2, Ok r) => (fst (addToHistory env c "agent" (message r) store2), r)
    | (store2, Throw) => (store2, getErrorResponse)
    end.
Proof.
  intros H. unfold processMessage, processMessageBody.
  change (bind (getConversationState c) ?k store) with (k (store !! c) store).
  rewrite H. erewrite bind_addToHistory by eassumption.
  fold (userEntry env msg). unfold bind at 1.
  destruct (dispatch _ _ _ _ _ _) as [store2 [r|]]; [|reflexivity].
  unfold bind, ret. unfold addToHistory. now destruct (store2 !! c).
Qed.

Lemma addToHistory_lookup env c r m (store : Store) st :
  store !! c = Some st ->
  fst (addToHistory env c r m store) !! c
  = Some (pushHistory st {| role := r; content := m; timestamp := now env |}).
Proof. intros H. unfold addToHistory. rewrite H. apply lookup_insert_eq. Qed.

Lemma assign_history st us : conversationHistory (assign st us) = conversationHistory st.
Proof.
  unfold assign. revert st.
  induction us as [|u us IH]; intros st; [reflexivity|].
  simpl. rewrite IH. now destruct u.
Qed.

Lemma afterHandler_history env st st2 :
  afterHandler env st st2 -> conversationHistory st2 = conversationHistory st.
Proof. intros [|us _]; [reflexivity|]. simpl. apply assign_history. Qed.

(** ** The sample call *)

Lemma sample_record n : (n <= 8)%nat -> storeAfter n !! sampleCall = Some (recordAfter n).
Proof.
  intros Hn.
  do 9 (destruct n as [|n]; [vm_compute; reflexivity|]). lia.
Qed.

Lemma runTurns_reachable this c turns : forall store,
  reachable this store -> reachable this (fst (runTurns this c turns store)).
Proof.
  induction turns as [|[env msg] turns IH]; intros store Hr; [exact Hr|].
  simpl. pose proof (reach_message this env c msg store Hr) as Hr'.
  destruct (processMessage this env c msg store) as [store' r].
  specialize (IH store' Hr').
  now destruct (runTurns this c turns store').
Qed.

Lemma sample_reachable n : reachable sampleConfig (storeAfter n).
Proof.
  unfold storeAfter, freshStore.
  apply runTurns_reachable, reach_initialize, reach_empty.
Qed.

(** ** Greeting *)

(** C1: processing an utterance at step greeting moves the stored record to
    verification, with [nextStep] verification and [requiresVerification]
    true in the reply, when the intent is schedule, reschedule or cancel;
    any other utterance is classified general and the step stays greeting. *)
Theorem greeting_routes_by_intent this env c msg (store : Store) st :
  store !! c = Some st ->
  step st = "greeting" ->
  exists st', fst (processMessage this env c msg store) !! c = Some st' /\
    if asksForService (detectIntent msg)
    then step st' = "verification"
         /\ nextStep (snd (processMessage this env c msg store)) = "verification"
         /\ requiresVerification (snd (processMessage this env c msg store)) = Some true
    else detectIntent msg = "general" /\ step st' = "greeting".
Proof.
  intros H Hs. rewrite (processMessage_dispatch _ _ _ _ _ _ H), Hs.
  change (dispatch this env "greeting" c msg) with (handleGreeting env c msg).
  unfold handleGreeting, detectIntent.
  repeat match goal with
         | |- context [if ?b then "schedule" else _] => destruct b
         | |- context [if ?b then "reschedule" else _] => destruct b
         | |- context [if ?b then "cancel" else _] => destruct b
         end; cbn [String.eqb Ascii.eqb Bool.eqb asksForService orb]; step_store.
  all: cbn [fst snd].
  all: eexists; (split; [eapply addToHistory_lookup, lookup_insert_eq|]).
  all: repeat split; try assumption.
Qed.

Lemma greeting_routes_by_intent_witness :
  freshStore !! sampleCall = Some (initialState sampleEnv sampleCall) /\
  step (initialState sampleEnv sampleCall) = "greeting" /\
  exists st',
    fst (processMessage sampleConfig laterEnv sampleCall
           "I want to schedule an appointment" freshStore) !! sampleCall = Some st' /\
    if asksForService (detectIntent "I want to schedule an appointment")
    then step st' = "verification"
         /\ nextStep (snd (processMessage sampleConfig laterEnv sampleCall
                             "I want to schedule an appointment" freshStore))
            = "verification"
         /\ requiresVerification
              (snd (processMessage sampleConfig laterEnv sampleCall
                      "I want to schedule an appointment" freshStore)) = Some true
    else detectIntent "I want to schedule an appointment" = "general"
         /\ step st' = "greeting".
Proof.
  split; [apply lookup_insert_eq|]. split; [reflexivity|].
  apply (greeting_routes_by_intent sampleConfig laterEnv sampleCall
           "I want to schedule an appointment" freshStore
           (initialState sampleEnv sampleCall)).
  - apply lookup_insert_eq.
  - reflexivity.
Defined.

(** ** A throw inside a handler *)

(** C2, as stated, fails: after two turns the sample call is at step
    appointment_type; with the default configuration the utterance
    "I need a follow-up" makes the handler write the appointment type and
    the next step and then throw, so the record is no longer the one that
    was stored when the message arrived. *)
Lemma throw_changes_record : ~ throw_leaves_record_untouched.
Proof.
  intros claim.
  assert (storeAfter 2 !! sampleCall = Some (recordAfter 2)) as H1
    by (vm_compute; reflexivity).
  assert (throws defaultConfig laterEnv sampleCall "I need a follow-up" (storeAfter 2) = true)
    as H2 by (vm_compute; reflexivity).
  destruct (claim defaultConfig laterEnv sampleCall "I need a follow-up" (storeAfter 2)
              (recordAfter 2) H1 H2) as (_ & Hl).
  assert (step <$> fst (processMessage defaultConfig laterEnv sampleCall
                          "I need a follow-up" (storeAfter 2)) !! sampleCall
          = Some "provider_selection") as Hs by (vm_compute; reflexivity).
  assert (step (recordAfter 2) = "appointment_type") as Hs' by (vm_compute; reflexivity).
  rewrite Hl in Hs. cbn [fmap option_fmap option_map] in Hs. congruence.
Qed.

(** ** Insurance *)

(** The extractor only ever returns a name of the accepted list, so the
    branch of [handleInsuranceVerification] for an insurer that is named
    but not accepted is never taken. *)
Lemma extractInsuranceInfo_accepted msg p :
  extractInsuranceInfo msg = Some p -> isAcceptedInsurance p = true.
Proof.
  unfold extractInsuranceInfo. intros H. apply find_some in H as [Hin _].
  unfold acceptedProviders in Hin. simpl in Hin.
  repeat (destruct Hin as [<-|Hin]; [reflexivity|]). contradiction.
Qed.

(** C3: the code at the failing input. The sample call is at step
    insurance_verification after six turns; the utterance "I have Humana"
    names an insurer that is not accepted, the extractor finds no name in
    it, and the reply is the plain re-prompt: no [selfPayOption]. The step
    does stay insurance_verification. *)
Theorem unaccepted_insurer_not_offered_self_pay :
  step (recordAfter 6) = "insurance_verification" /\
  extractInsuranceInfo "I have Humana" = None /\
  selfPayOption (snd (processMessage sampleConfig laterEnv sampleCall "I have Humana"
                        (storeAfter 6))) = None /\
  step <$> fst (processMessage sampleConfig laterEnv sampleCall "I have Humana"
                  (storeAfter 6)) !! sampleCall = Some "insurance_verification".
Proof. repeat split; vm_compute; reflexivity. Qed.

(** ** Time selection *)

(** C4, as amended: at step time_selection, an utterance with a parsed time
    whose availability check succeeds sets [preferredTime] in the stored
    record and advances the step to insurance_verification; the selected
    slot (provider, date, time, type) is returned in the reply, and the
    record's [selectedSlot] is left as it was. *)
Theorem time_selection_keeps_slot_in_reply this env c msg (store : Store) st t :
  store !! c = Some st ->
  step st = "time_selection" ->
  detectTimeSelection msg = Some t ->
  checkTimeAvailability env = true ->
  exists st', fst (processMessage this env c msg store) !! c = Some st' /\
    preferredTime st' = Some t /\
    step st' = "insurance_verification" /\
    selectedSlot st' = selectedSlot st /\
    extra (snd (processMessage this env c msg store))
    = [F_selectedSlot {| slot_provider := preferredProvider st;
                         slot_date := preferredDate st;
                         slot_time := t;
                         slot_type := appointmentType st |}].
Proof.
  intros H Hs Ht Ha.
  rewrite (processMessage_dispatch _ _ _ _ _ _ H), Hs.
  change (dispatch this env "time_selection" c msg)
    with (handleTimeSelection this env c msg).
  unfold handleTimeSelection. rewrite Ht, Ha. cbv beta iota. step_store.
  cbn [negb]. cbv beta iota. step_store. cbn [fst snd].
  eexists. split; [eapply addToHistory_lookup, lookup_insert_eq|].
  repeat split.
Qed.

Lemma time_selection_keeps_slot_in_reply_witness :
  storeAfter 5 !! sampleCall = Some (recordAfter 5) /\
  step (recordAfter 5) = "time_selection" /\
  detectTimeSelection "10:30" = Some "10:30" /\
  checkTimeAvailability laterEnv = true /\
  exists st', fst (processMessage sampleConfig laterEnv sampleCall "10:30" (storeAfter 5))
                !! sampleCall = Some st' /\
    preferredTime st' = Some "10:30" /\
    step st' = "insurance_verification" /\
    selectedSlot st' = selectedSlot (recordAfter 5) /\
    extra (snd (processMessage sampleConfig laterEnv sampleCall "10:30" (storeAfter 5)))
    = [F_selectedSlot {| slot_provider := preferredProvider (recordAfter 5);
                         slot_date := preferredDate (recordAfter 5);
                         slot_time := "10:30";
                         slot_type := appointmentType (recordAfter 5) |}].
Proof.
  split; [vm_compute; reflexivity|]. split; [vm_compute; reflexivity|].
  split; [vm_compute; reflexivity|]. split; [vm_compute; reflexivity|].
  apply (time_selection_keeps_slot_in_reply sampleConfig laterEnv sampleCall "10:30"
           (storeAfter 5) (recordAfter 5) "10:30"); vm_compute; reflexivity.
Defined.

(** C4, as stated, fails: on the sample call at step time_selection the
    utterance "10:30" is parsed and available, the step advances, and the
    record's [selectedSlot] is still [null]. *)
Lemma time_selection_slot_not_stored : ~ time_selection_stores_slot.
Proof.
  intros claim.
  assert (storeAfter 5 !! sampleCall = Some (recordAfter 5)) as H1
    by (vm_compute; reflexivity).
  assert (step (recordAfter 5) = "time_selection") as H2 by (vm_compute; reflexivity).
  assert (detectTimeSelection "10:30" = Some "10:30") as H3 by (vm_compute; reflexivity).
  assert (checkTimeAvailability laterEnv = true) as H4 by (vm_compute; reflexivity).
  destruct (claim sampleConfig laterEnv sampleCall "10:30" (storeAfter 5) (recordAfter 5)
              "10:30" H1 H2 H3 H4) as (st' & Hl & _ & [slot Hslot] & _).
  assert (fst (processMessage sampleConfig laterEnv sampleCall "10:30" (storeAfter 5))
            !! sampleCall = Some (recordAfter 6)) as Hl' by (vm_compute; reflexivity).
  assert (st' = recordAfter 6) as -> by congruence.
  assert (selectedSlot (recordAfter 6) = None) as Hn by (vm_compute; reflexivity).
  congruence.
Qed.

(** ** Slots *)

(** Every slot produced by the hour loop is the text of an hour of the
    visited range that is outside the lunch hours, at a quarter. *)
Lemma hoursLoop_slots n : forall hour ls le s,
  In s (hoursLoop n hour ls le) ->
  exists h m, s = timeString h m /\ hour <= h < hour + Z.of_nat n /\
              inLunch h ls le = false /\ In m [0; 15; 30; 45].
Proof.
  induction n as [|n IH]; intros hour ls le s Hin; [destruct Hin|].
  cbn [hoursLoop] in Hin. destruct (inLunch hour ls le) eqn:Hl.
  - destruct (IH _ _ _ _ Hin) as (h & m & -> & Hr & Hn & Hm).
    exists h, m. repeat split; try assumption; lia.
  - apply in_app_or in Hin as [Hin|Hin].
    + unfold quarterSlots in Hin. apply in_map_iff in Hin as (m & <- & Hm).
      exists hour, m. repeat split; try assumption; lia.
    + destruct (IH _ _ _ _ Hin) as (h & m & -> & Hr & Hn & Hm).
      exists h, m. repeat split; try assumption; lia.
Qed.

(** C5: the code at the failing input. Charles Maddix starts at 10:30 on
    Mondays (the schedule of the deployment guide); 2024-01-15 is a Monday;
    the first slots returned are 10:00 and 10:15, which lie before the start
    of the schedule: 600 and 615 minutes against 630. *)
Theorem slots_offered_before_schedule_start :
  start <$> (pschedule charlesMaddix ≫= (.!! "monday")) = Some (Some "10:30") /\
  Moment.formatWeekday (Moment.parse "2024-01-15") = "Monday" /\
  (firstn 3 <$> match getAvailableTimes sampleConfig (Some charlesMaddix)
                        (Some "2024-01-15") with
                | Ok l => Some l
                | Throw => None
                end) = Some ["10:00"; "10:15"; "10:30"] /\
  minutesOf "10:00" = Some 600 /\ minutesOf "10:15" = Some 615 /\
  minutesOf "10:30" = Some 630.
Proof. repeat split; vm_compute; reflexivity. Qed.

(** ** Last activity *)

(** C6: the code at the failing input. A call is started at one clock
    reading; at a later one, [addToHistory] appends an entry, and a whole
    driver turn on "Hello" appends two, and in both cases [lastActivity] is
    still the time the call was started. *)
Theorem history_append_leaves_lastActivity :
  lastActivity <$> freshStore !! sampleCall = Some (now sampleEnv) /\
  now sampleEnv < now laterEnv /\
  (length ∘ conversationHistory) <$>
    fst (addToHistory laterEnv sampleCall "user" "Hello" freshStore) !! sampleCall
  = Some 1%nat /\
  lastActivity <$>
    fst (addToHistory laterEnv sampleCall "user" "Hello" freshStore) !! sampleCall
  = Some (now sampleEnv) /\
  (length ∘ conversationHistory) <$>
    fst (processMessage sampleConfig laterEnv sampleCall "Hello" freshStore) !! sampleCall
  = Some 2%nat /\
  lastActivity <$>
    fst (processMessage sampleConfig laterEnv sampleCall "Hello" freshStore) !! sampleCall
  = Some (now sampleEnv).
Proof. repeat split; vm_compute; reflexivity. Qed.

(** ** The gathered fields follow the step *)

Lemma onTrack_initial env c : onTrack (initialState env c).
Proof. unfold onTrack; cbn. repeat split; intros H; try lia; discriminate. Qed.

Lemma onTrack_afterHandler env st st2 :
  onTrack st -> afterHandler env st st2 -> onTrack st2.
Proof.
  intros Hon Hafter. destruct Hafter as [|us Hw]; [assumption|].
  unfold onTrack in *.
  inversion Hw as [E|ci E|t E|p E|d E|t E|i E|E]; subst us;
    rewrite <- E in Hon; cbn in Hon |- *;
    destruct Hon as (H2 & H4 & H5 & H6 & H7);
    repeat split; intros H;
    first [ lia | apply H2; lia | apply H4; lia | apply H5; lia | apply H6; lia
          | specialize (H7 H); lia | eauto ].
Qed.

Lemma processMessage_onTrack this env c msg (store : Store) :
  (forall c' st, store !! c' = Some st -> onTrack st) ->
  forall c' st, fst (processMessage this env c msg store) !! c' = Some st -> onTrack st.
Proof.
  intros Hall c' st'. unfold processMessage.
  destruct (store !! c) as [st|] eqn:Hc.
  - destruct (processMessageBody_turn this env c msg store st Hc) as (st2 & res & Ha & ->).
    assert (onTrack st2) as H2
      by (eapply onTrack_afterHandler; [|exact Ha]; exact (Hall c st Hc)).
    destruct res as [r|]; simpl; rewrite lookup_insert;
      case_decide; intros Hl; simplify_eq; eauto.
  - rewrite processMessageBody_unknown by assumption. simpl. apply Hall.
Qed.

Lemma reachable_onTrack this (store : Store) :
  reachable this store -> forall c st, store !! c = Some st -> onTrack st.
Proof.
  induction 1 as [|env c0 store Hr IH|env c0 msg store Hr IH|c0 store Hr IH];
    intros c st.
  - rewrite lookup_empty. discriminate.
  - simpl. rewrite lookup_insert.
    case_decide; intros Hl; simplify_eq; eauto using onTrack_initial.
  - now apply processMessage_onTrack.
  - simpl. rewrite lookup_delete. case_decide; intros Hl; simplify_eq; eauto.
Qed.

(** C7: in every store reachable from the empty one by starting calls,
    processing messages and ending calls, a record with [insuranceVerified]
    true has [clientVerified] true and a preferred provider, date and time. *)
Theorem insurance_verified_only_after_identity_and_slot this (store : Store) c st :
  reachable this store ->
  store !! c = Some st ->
  insuranceVerified st = true ->
  clientVerified st = true /\ slotChosen st.
Proof.
  intros Hr Hl Hi.
  destruct (reachable_onTrack this store Hr c st Hl) as (H2 & H4 & H5 & H6 & H7).
  specialize (H7 Hi). unfold slotChosen.
  repeat split; (apply H2 || apply H4 || apply H5 || apply H6); lia.
Qed.

Lemma insurance_verified_only_after_identity_and_slot_witness :
  reachable sampleConfig (storeAfter 7) /\
  storeAfter 7 !! sampleCall = Some (recordAfter 7) /\
  insuranceVerified (recordAfter 7) = true /\
  clientVerified (recordAfter 7) = true /\ slotChosen (recordAfter 7).
Proof.
  assert (storeAfter 7 !! sampleCall = Some (recordAfter 7)) as H1
    by (vm_compute; reflexivity).
  assert (insuranceVerified (recordAfter 7) = true) as H2 by (vm_compute; reflexivity).
  split; [apply sample_reachable|]. split; [exact H1|]. split; [exact H2|].
  exact (insurance_verified_only_after_identity_and_slot sampleConfig (storeAfter 7)
           sampleCall (recordAfter 7) (sample_reachable 7) H1 H2).
Defined.

(** ** History *)

Lemma turn_history this env c msg (store store' : Store) st r :
  store !! c = Some st ->
  processMessageBody this env c msg store = (store', Ok r) ->
  exists st', store' !! c = Some st' /\
    conversationHistory st'
    = conversationHistory st ++ [userEntry env msg; agentEntry env r].
Proof.
  intros Hc Hb.
  destruct (processMessageBody_turn this env c msg store st Hc) as (st2 & res & Ha & E).
  rewrite E in Hb. destruct res as [r'|]; [|discriminate].
  injection Hb as <- <-.
  eexists. split; [apply lookup_insert_eq|].
  simpl. rewrite (afterHandler_history _ _ _ Ha). simpl.
  now rewrite <- app_assoc.
Qed.

Lemma runTurns_transcript this c turns : forall (store : Store) st,
  store !! c = Some st ->
  noThrow this c turns store = true ->
  exists st', fst (runTurns this c turns store) !! c = Some st' /\
    map speaker (conversationHistory st')
    = map speaker (conversationHistory st)
      ++ transcript turns (snd (runTurns this c turns store)) /\
    length (transcript turns (snd (runTurns this c turns store)))
    = (2 * length turns)%nat /\
    map fst (transcript turns (snd (runTurns this c turns store)))
    = flat_map (fun _ => ["user"; "agent"]) turns.
Proof.
  induction turns as [|[env msg] turns IH]; intros store st Hc Hv.
  - exists st. simpl. rewrite app_nil_r. auto.
  - simpl in Hv |- *. unfold processMessage.
    destruct (processMessageBody this env c msg store) as [store' [r|]] eqn:Hb;
      [|discriminate].
    destruct (turn_history _ _ _ _ _ _ _ _ Hc Hb) as (st1 & Hc1 & Hh1).
    destruct (IH store' st1 Hc1 Hv) as (st' & Hc' & Ht & Hlen & Hroles).
    destruct (runTurns this c turns store') as [store'' rs].
    simpl in *. exists st'. split; [assumption|].
    rewrite Ht, Hh1, map_app, <- app_assoc. simpl.
    rewrite Hlen, Hroles. repeat split; try reflexivity. lia.
Qed.

(** C8: after a call is started and [n] turns are processed without a
    throw, ending at step completed, the history has exactly [2n] entries:
    each utterance followed by the reply to it, in the order of the turns,
    so the roles alternate user, agent. *)
Theorem history_of_completed_call this env0 c turns (store0 : Store) st :
  noThrow this c turns (fst (initializeConversation env0 c store0)) = true ->
  fst (runTurns this c turns (fst (initializeConversation env0 c store0))) !! c = Some st ->
  step st = "completed" ->
  length (conversationHistory st) = (2 * length turns)%nat /\
  map speaker (conversationHistory st)
  = transcript turns
      (snd (runTurns this c turns (fst (initializeConversation env0 c store0)))) /\
  map role (conversationHistory st) = flat_map (fun _ => ["user"; "agent"]) turns.
Proof.
  intros Hv Hc _.
  destruct (runTurns_transcript this c turns _ (initialState env0 c)
              (lookup_insert_eq _ _ _) Hv) as (st' & Hc' & Ht & Hlen & Hroles).
  pose proof (eq_trans (eq_sym Hc) Hc') as Heq. injection Heq as <-.
  change (map speaker (conversationHistory (initialState env0 c)))
    with (@nil (string * string)) in Ht.
  rewrite app_nil_l in Ht. rewrite <- Ht in Hlen, Hroles.
  rewrite length_map in Hlen. split; [assumption|]. split; [assumption|].
  rewrite <- Hroles. rewrite map_map. reflexivity.
Qed.

Lemma history_of_completed_call_witness :
  noThrow sampleConfig sampleCall sampleTurns
    (fst (initializeConversation sampleEnv sampleCall ∅)) = true /\
  fst (runTurns sampleConfig sampleCall sampleTurns
         (fst (initializeConversation sampleEnv sampleCall ∅))) !! sampleCall
  = Some (recordAfter 8) /\
  step (recordAfter 8) = "completed" /\
  length (conversationHistory (recordAfter 8)) = (2 * length sampleTurns)%nat /\
  map speaker (conversationHistory (recordAfter 8))
  = transcript sampleTurns
      (snd (runTurns sampleConfig sampleCall sampleTurns
              (fst (initializeConversation sampleEnv sampleCall ∅)))) /\
  map role (conversationHistory (recordAfter 8))
  = flat_map (fun _ => ["user"; "agent"]) sampleTurns.
Proof.
  assert (noThrow sampleConfig sampleCall sampleTurns
            (fst (initializeConversation sampleEnv sampleCall ∅)) = true) as H1
    by (vm_compute; reflexivity).
  assert (fst (runTurns sampleConfig sampleCall sampleTurns
                 (fst (initializeConversation sampleEnv sampleCall ∅))) !! sampleCall
          = Some (recordAfter 8)) as H2 by (vm_compute; reflexivity).
  assert (step (recordAfter 8) = "completed") as H3 by (vm_compute; reflexivity).
  split; [exact H1|]. split; [exact H2|]. split; [exact H3|].
  exact (history_of_completed_call sampleConfig sampleEnv sampleCall sampleTurns ∅
           (recordAfter 8) H1 H2 H3).
Defined.

(** ** Dates *)

(** C9: there is an utterance that matches the date pattern with the text
    13/45/2024, which is no calendar date, for which [detectDateSelection]
    returns the text "Invalid date"; at step date_selection the handler takes
    it for a date, stores it as [preferredDate] and moves on to
    time_selection. *)
Theorem invalid_date_is_accepted :
  exists msg,
    Regex.exec Regex.dateRegex msg = Some "13/45/2024" /\
    Moment.parse "13/45/2024" = Moment.Invalid /\
    detectDateSelection msg = Some "Invalid date" /\
    forall this env c (store : Store) st,
      store !! c = Some st ->
      step st = "date_selection" ->
      exists st', fst (processMessage this env c msg store) !! c = Some st' /\
        preferredDate st' = Some "Invalid date" /\ step st' = "time_selection".
Proof.
  exists "How about 13/45/2024?".
  split; [reflexivity|]. split; [reflexivity|]. split; [reflexivity|].
  intros this env c store st H Hs.
  rewrite (processMessage_dispatch _ _ _ _ _ _ H), Hs.
  change (dispatch this env "date_selection" c ?m) with (handleDateSelection this env c m).
  unfold handleDateSelection.
  change (detectDateSelection "How about 13/45/2024?") with (Some "Invalid date").
  cbv beta iota. step_store.
  destruct (getAvailableTimes _ _ _) as [times|]; step_store; cbn [fst snd].
  - eexists. split; [eapply addToHistory_lookup, lookup_insert_eq|]. split; reflexivity.
  - eexists. split; [apply lookup_insert_eq|]. split; reflexivity.
Qed.

Lemma invalid_date_is_accepted_witness :
  storeAfter 4 !! sampleCall = Some (recordAfter 4) /\
  step (recordAfter 4) = "date_selection" /\
  exists msg st',
    detectDateSelection msg = Some "Invalid date" /\
    fst (processMessage sampleConfig laterEnv sampleCall msg (storeAfter 4)) !! sampleCall
    = Some st' /\
    preferredDate st' = Some "Invalid date" /\ step st' = "time_selection".
Proof.
  assert (storeAfter 4 !! sampleCall = Some (recordAfter 4)) as H1
    by (vm_compute; reflexivity).
  assert (step (recordAfter 4) = "date_selection") as H2 by (vm_compute; reflexivity).
  split; [exact H1|]. split; [exact H2|].
  destruct invalid_date_is_accepted as (msg & _ & _ & Hd & Hall).
  destruct (Hall sampleConfig laterEnv sampleCall (storeAfter 4) (recordAfter 4) H1 H2)
    as (st' & Hl & Hp & Hs).
  exists msg, st'. repeat split; assumption.
Defined.

(** ** Providers *)

Lemma getAvailableProviders_throws_iff this t :
  getAvailableProviders this t = Throw <-> ~ providersConfigured this t.
Proof.
  unfold getAvailableProviders, scheduleOf, providersConfigured.
  destruct (providerSchedules this !! "charles_maddix") as [s1|];
    [|split; [intros _ (H & _); now destruct H | reflexivity]].
  destruct (providerSchedules this !! "ava_suleiman") as [s2|];
    [|split; [intros _ (_ & H & _); now destruct H | reflexivity]].
  case_decide as Ht.
  - destruct (providerSchedules this !! "dr_soto") as [s3|].
    + split; [discriminate|]. intros Hn. exfalso. apply Hn. eauto.
    + split; [|reflexivity]. intros _ (_ & _ & H). now destruct (H Ht).
  - split; [discriminate|]. intros Hn. exfalso. apply Hn.
    repeat split; eauto. intros Ht'. contradiction.
Qed.

(** C10: [getAvailableProviders] throws exactly when the configuration
    lacks the entry of charles_maddix or of ava_suleiman, or that of dr_soto
    for a follow_up; with the default, empty configuration it throws for
    every appointment type, and at step appointment_type every utterance in
    which a type is recognised ends in the driver's error response. *)
Theorem providers_need_configuration :
  (forall this t, getAvailableProviders this t = Throw <-> ~ providersConfigured this t) /\
  (forall t, getAvailableProviders defaultConfig t = Throw) /\
  (forall env c msg (store : Store) st t,
      store !! c = Some st ->
      step st = "appointment_type" ->
      detectAppointmentType msg = Some t ->
      throws defaultConfig env c msg store = true /\
      snd (processMessage defaultConfig env c msg store) = getErrorResponse).
Proof.
  split; [apply getAvailableProviders_throws_iff|]. split; [reflexivity|].
  intros env c msg store st t H Hs Ht.
  assert (processMessageBody defaultConfig env c msg store
          = (<[c := setLastActivity
                      (assign (pushHistory st (userEntry env msg))
                         [SetAppointmentType t; SetStep "provider_selection"])
                      (now env)]> store,
             Throw)) as Hb.
  { unfold processMessageBody.
    change (bind (getConversationState c) ?k store) with (k (store !! c) store).
    rewrite H. erewrite bind_addToHistory by eassumption. rewrite Hs.
    change (dispatch defaultConfig env "appointment_type" c msg)
      with (handleAppointmentType defaultConfig env c msg).
    unfold bind at 1. unfold handleAppointmentType. rewrite Ht. step_store.
    change (getAvailableProviders defaultConfig (Some t)) with (@Throw (list Provider)).
    step_store. now rewrite insert_insert_eq. }
  unfold throws, processMessage. now rewrite Hb.
Qed.

Lemma providers_need_configuration_witness :
  storeAfter 2 !! sampleCall = Some (recordAfter 2) /\
  step (recordAfter 2) = "appointment_type" /\
  detectAppointmentType "I need a follow-up" = Some "follow_up" /\
  throws defaultConfig laterEnv sampleCall "I need a follow-up" (storeAfter 2) = true /\
  snd (processMessage defaultConfig laterEnv sampleCall "I need a follow-up" (storeAfter 2))
  = getErrorResponse.
Proof.
  assert (storeAfter 2 !! sampleCall = Some (recordAfter 2)) as H1
    by (vm_compute; reflexivity).
  assert (step (recordAfter 2) = "appointment_type") as H2 by (vm_compute; reflexivity).
  assert (detectAppointmentType "I need a follow-up" = Some "follow_up") as H3
    by (vm_compute; reflexivity).
  split; [exact H1|]. split; [exact H2|]. split; [exact H3|].
  exact (proj2 (proj2 providers_need_configuration) laterEnv sampleCall
           "I need a follow-up" (storeAfter 2) (recordAfter 2) "follow_up" H1 H2 H3).
Defined.

(** ** More on the store operations *)

(** [updateConversationState] on a known call refreshes [lastActivity]. *)
Lemma updateConversationState_refreshes env c us (store : Store) st :
  store !! c = Some st ->
  lastActivity <$> fst (updateConversationState env c us store) !! c = Some (now env).
Proof.
  intros H. unfold updateConversationState. rewrite H. cbn [fst].
  now rewrite lookup_insert_eq.
Qed.

(** The hours of the slots of [getAvailableTimes] lie between the hour of
    the day's start and the hour of its end, outside the lunch hours. *)
Lemma getAvailableTimes_hours this provider date slots s :
  getAvailableTimes this provider date = Ok slots ->
  In s slots ->
  exists day st en sh eh h m,
    daySchedule provider (JS.toLowerCase (Moment.formatWeekday (momentOf date)))
    = Ok (Some day) /\
    start day = Some st /\ end_ day = Some en /\
    hourOf st = Some sh /\ hourOf en = Some eh /\
    s = timeString h m /\ sh <= h < eh /\
    inLunch h (hourOf (lunchBreakStart this)) (hourOf (lunchBreakEnd this)) = false /\
    In m [0; 15; 30; 45].
Proof.
  unfold getAvailableTimes. intros Hg Hin.
  destruct (daySchedule provider _) as [[day|]|] eqn:Hd; try discriminate;
    [|injection Hg as <-; destruct Hin].
  destruct (start day) as [st|] eqn:Hst; [|discriminate].
  destruct (end_ day) as [en|] eqn:Hen; [|discriminate].
  destruct (hourOf st) as [sh|] eqn:Hsh; [|injection Hg as <-; destruct Hin].
  destruct (hourOf en) as [eh|] eqn:Heh; [|injection Hg as <-; destruct Hin].
  injection Hg as <-.
  apply hoursLoop_slots in Hin as (h & m & -> & Hr & Hl & Hm).
  exists day, st, en, sh, eh, h, m. repeat split; try assumption; lia.
Qed.

(** ** The handlers against the transition function *)

Ltac close_spec Hs :=
  first [ match goal with H : vr_verified _ = false |- _ => discriminate H end
        | split; [reflexivity | cbn; try rewrite Hs; auto; fail] ].

Ltac start_handler Hs :=
  unfold handlerSpec, stepUpdates; rewrite Hs;
  cbn [String.eqb Ascii.eqb Bool.eqb].

Lemma handleGreeting_spec this env c msg (store : Store) st :
  store !! c = Some st -> step st = "greeting" ->
  handlerSpec this env msg c st store (handleGreeting env c msg store).
Proof.
  intros H Hs. start_handler Hs. unfold handleGreeting, asksForService.
  destruct (String.eqb (detectIntent msg) "schedule"); cbn [orb];
    [step_store; close_spec Hs|].
  destruct (String.eqb (detectIntent msg) "reschedule"); cbn [orb];
    [step_store; close_spec Hs|].
  destruct (String.eqb (detectIntent msg) "cancel"); cbn [orb];
    [step_store; close_spec Hs|].
  close_spec Hs.
Qed.

Lemma handleVerification_spec this env c msg (store : Store) st :
  store !! c = Some st -> step st = "verification" ->
  handlerSpec this env msg c st store (handleVerification env c msg store).
Proof.
  intros H Hs. start_handler Hs. unfold handleVerification.
  split_handler; close_spec Hs.
Qed.

Lemma handleAppointmentType_spec this env c msg (store : Store) st :
  store !! c = Some st -> step st = "appointment_type" ->
  handlerSpec this env msg c st store (handleAppointmentType this env c msg store).
Proof.
  intros H Hs. start_handler Hs. unfold handleAppointmentType.
  split_handler; close_spec Hs.
Qed.

Lemma handleProviderSelection_spec this env c msg (store : Store) st :
  store !! c = Some st -> step st = "provider_selection" ->
  handlerSpec this env msg c st store (handleProviderSelection this env c msg store).
Proof.
  intros H Hs. start_handler Hs. unfold handleProviderSelection.
  split_handler; close_spec Hs.
Qed.

Lemma handleDateSelection_spec this env c msg (store : Store) st :
  store !! c = Some st -> step st = "date_selection" ->
  handlerSpec this env msg c st store (handleDateSelection this env c msg store).
Proof.
  intros H Hs. start_handler Hs. unfold handleDateSelection.
  split_handler; close_spec Hs.
Qed.

Lemma handleTimeSelection_spec this env c msg (store : Store) st :
  store !! c = Some st -> step st = "time_selection" ->
  handlerSpec this env msg c st store (handleTimeSelection this env c msg store).
Proof.
  intros H Hs. start_handler Hs. unfold handleTimeSelection, offerTimes.
  destruct (detectTimeSelection msg) eqn:Ht; [|split_handler; close_spec Hs].
  step_store. destruct (checkTimeAvailability env) eqn:Ha; cbn [negb];
    split_handler; close_spec Hs.
Qed.

Lemma handleInsuranceVerification_spec this env c msg (store : Store) st :
  store !! c = Some st -> step st = "insurance_verification" ->
  handlerSpec this env msg c st store (handleInsuranceVerification env c msg store).
Proof.
  intros H Hs. start_handler Hs. unfold handleInsuranceVerification.
  destruct (extractInsuranceInfo msg) as [p|] eqn:He; [|close_spec Hs].
  rewrite (extractInsuranceInfo_accepted _ _ He).
  cbn [negb simulateInsuranceVerification iv_verified].
  split_handler; close_spec Hs.
Qed.

Lemma handleConfirmation_spec this env c msg (store : Store) st :
  store !! c = Some st -> step st = "confirmation" ->
  handlerSpec this env msg c st store (handleConfirmation env c msg store).
Proof.
  intros H Hs. start_handler Hs. unfold handleConfirmation.
  destruct (decide (detectConfirmation msg = Some "yes")) as [Hy|Hy].
  - cbn [createAppointment ar_success]. step_store. close_spec Hs.
  - destruct (decide (detectConfirmation msg = Some "no")); close_spec Hs.
Qed.

Lemma dispatch_spec this env c msg (store : Store) st :
  store !! c = Some st ->
  existsb (String.eqb (step st)) switchCases = true ->
  handlerSpec this env msg c st store (dispatch this env (step st) c msg store).
Proof.
  intros H Hin. unfold dispatch.
  repeat match goal with
         | |- context [String.eqb (step st) ?k] =>
             destruct (String.eqb_spec (step st) k) as [Hs|?]
         end;
    eauto using handleGreeting_spec, handleVerification_spec,
      handleAppointmentType_spec, handleProviderSelection_spec,
      handleDateSelection_spec, handleTimeSelection_spec,
      handleInsuranceVerification_spec, handleConfirmation_spec.
  - start_handler Hs. split; [reflexivity | exact I].
  - start_handler Hs. split; [reflexivity | exact I].
  - exfalso. unfold switchCases in Hin. cbn [existsb] in Hin.
    repeat match goal with
           | Hn : step st <> ?k |- _ =>
               apply String.eqb_neq in Hn; rewrite Hn in Hin; clear Hn
           end.
    discriminate.
Qed.

Lemma dispatch_default this env s c msg :
  existsb (String.eqb s) switchCases = false ->
  dispatch this env s c msg = handleGeneralInquiry.
Proof.
  intros H. unfold switchCases in H. cbn [existsb] in H.
  repeat (apply orb_false_elim in H as [? H]).
  unfold dispatch.
  repeat match goal with
         | E : String.eqb s ?k = false |- _ => rewrite E; clear E
         end.
  reflexivity.
Qed.

Lemma stepUpdates_default this env msg st :
  existsb (String.eqb (step st)) switchCases = false ->
  stepUpdates this env msg st = None.
Proof.
  intros H. unfold switchCases in H. cbn [existsb] in H.
  repeat (apply orb_false_elim in H as [? H]).
  unfold stepUpdates. cbv zeta.
  repeat match goal with
         | E : String.eqb (step st) ?k = false |- _ => rewrite E; clear E
         end.
  reflexivity.
Qed.

(** The store a handler leaves, at any step. *)
Lemma dispatch_store this env c msg (store : Store) st :
  store !! c = Some st ->
  fst (dispatch this env (step st) c msg store)
  = match stepUpdates this env msg st with
    | Some us => <[c := setLastActivity (assign st us) (now env)]> store
    | None => store
    end.
Proof.
  intros H. destruct (existsb (String.eqb (step st)) switchCases) eqn:Hin.
  - apply (dispatch_spec this env c msg store st H Hin).
  - now rewrite dispatch_default, stepUpdates_default.
Qed.

Lemma processMessageBody_dispatch this env c msg (store : Store) st :
  store !! c = Some st ->
  processMessageBody this env c msg store
  = match dispatch this env (step st) c msg
            (<[c := pushHistory st (userEntry env msg)]> store) with
    | (store2, Ok r) => (fst (addToHistory env c "agent" (message r) store2), Ok r)
    | (store2, Throw) => (store2, Throw)
    end.
Proof.
  intros H. unfold processMessageBody.
  change (bind (getConversationState c) ?k store) with (k (store !! c) store).
  rewrite H. erewrite bind_addToHistory by eassumption.
  fold (userEntry env msg). unfold bind at 1.
  destruct (dispatch _ _ _ _ _ _) as [store2 [r|]]; [|reflexivity].
  unfold bind, ret. unfold addToHistory. now destruct (store2 !! c).
Qed.

(** One turn, exactly: the record after the utterance is pushed, the
    transition function is applied, and the reply is pushed unless the
    handler threw. *)
Lemma processMessage_exact this env c msg (store : Store) st :
  store !! c = Some st ->
  let st2 := applyStep env (pushHistory st (userEntry env msg))
               (stepUpdates this env msg st) in
  fst (processMessage this env c msg store)
  = <[c := if throws this env c msg store then st2
           else pushHistory st2
                  (agentEntry env (snd (processMessage this env c msg store)))]> store.
Proof.
  intros H st2. subst st2.
  set (st1 := pushHistory st (userEntry env msg)).
  change (stepUpdates this env msg st) with (stepUpdates this env msg st1).
  unfold throws, processMessage. rewrite (processMessageBody_dispatch _ _ _ _ _ _ H).
  fold st1.
  pose proof (dispatch_store this env c msg (<[c := st1]> store) st1
                (lookup_insert_eq _ _ _)) as E.
  change (step st1) with (step st) in E.
  destruct (dispatch this env (step st) c msg (<[c := st1]> store)) as [store2 res].
  cbn [fst] in E. subst store2.
  destruct (stepUpdates this env msg st1) as [us|]; cbn [applyStep];
    destruct res as [r|]; cbn [fst snd];
    unfold addToHistory; rewrite ?insert_insert_eq, ?lookup_insert_eq; cbn [fst];
    rewrite ?insert_insert_eq; reflexivity.
Qed.

(** X1: the driver refines the transition function. On a call with a
    record, one turn leaves the store with that record replaced by: the
    record with the utterance pushed, the write of the transition function
    applied (stamped with the clock), and then the reply pushed, unless the
    handler threw. *)
Theorem driver_refines_transition_function this env c msg (store : Store) st :
  store !! c = Some st ->
  fst (processMessage this env c msg store)
  = <[c := if throws this env c msg store
           then applyStep env (pushHistory st (userEntry env msg))
                  (stepUpdates this env msg st)
           else pushHistory
                  (applyStep env (pushHistory st (userEntry env msg))
                     (stepUpdates this env msg st))
                  (agentEntry env (snd (processMessage this env c msg store)))]> store.
Proof. intros H. exact (processMessage_exact this env c msg store st H). Qed.

Lemma driver_refines_transition_function_witness :
  storeAfter 3 !! sampleCall = Some (recordAfter 3) /\
  stepUpdates sampleConfig laterEnv "Charles Maddix please" (recordAfter 3)
  = Some [SetPreferredProvider
            {| pid := "charles_maddix"; pname := "Charles Maddix";
               pschedule := default None (providerSchedules sampleConfig !! "charles_maddix") |};
          SetStep "date_selection"] /\
  fst (processMessage sampleConfig laterEnv sampleCall "Charles Maddix please" (storeAfter 3))
  = <[sampleCall :=
        if throws sampleConfig laterEnv sampleCall "Charles Maddix please" (storeAfter 3)
        then applyStep laterEnv
               (pushHistory (recordAfter 3) (userEntry laterEnv "Charles Maddix please"))
               (stepUpdates sampleConfig laterEnv "Charles Maddix please" (recordAfter 3))
        else pushHistory
               (applyStep laterEnv
                  (pushHistory (recordAfter 3) (userEntry laterEnv "Charles Maddix please"))
                  (stepUpdates sampleConfig laterEnv "Charles Maddix please" (recordAfter 3)))
               (agentEntry laterEnv
                  (snd (processMessage sampleConfig laterEnv sampleCall
                          "Charles Maddix please" (storeAfter 3))))]> (storeAfter 3).
Proof.
  assert (storeAfter 3 !! sampleCall = Some (recordAfter 3)) as H1
    by (vm_compute; reflexivity).
  split; [exact H1|]. split; [vm_compute; reflexivity|].
  exact (driver_refines_transition_function sampleConfig laterEnv sampleCall
           "Charles Maddix please" (storeAfter 3) (recordAfter 3) H1).
Defined.
(** The writes of the transition function are those of the table. *)
Lemma stepUpdates_stepWrite this env msg st us :
  stepUpdates this env msg st = Some us -> stepWrite (step st) us.
Proof.
  unfold stepUpdates. cbv zeta.
  repeat match goal with
         | |- context [String.eqb (step st) ?k] =>
             destruct (String.eqb_spec (step st) k) as [->|?]
         end;
    repeat match goal with
           | |- context [match ?x with _ => _ end] => destruct x
           end;
    intros E; try discriminate; injection E as <-; constructor.
Qed.

Lemma stepWrite_advances s us st :
  stepWrite s us -> stage (step (assign st us)) = S (stage s).
Proof. intros H. destruct H; reflexivity. Qed.

Lemma assign_untouched st us :
  callId (assign st us) = callId st /\ startTime (assign st us) = startTime st /\
  availableSlots (assign st us) = availableSlots st /\
  selectedSlot (assign st us) = selectedSlot st /\
  lastActivity (assign st us) = lastActivity st.
Proof.
  unfold assign. revert st.
  induction us as [|u us IH]; intros st; [repeat split|].
  cbn [fold_left]. destruct (IH (assign1 st u)) as (-> & -> & -> & -> & ->).
  now destruct u.
Qed.

(** ** A throw inside a handler, exactly *)

(** C2, as amended: when a step handler throws on an existing record, the
    driver returns the fixed transfer-to-human response; the stored record is
    not restored: it is the record with the utterance appended to its
    history, with no agent entry, and with the write of its step applied
    whenever the handler made that write before the throw, which is when the
    transition function gives one; the records of other calls are
    unchanged. *)
Theorem throw_keeps_utterance_and_write this env c msg (store : Store) st :
  store !! c = Some st ->
  throws this env c msg store = true ->
  snd (processMessage this env c msg store) = getErrorResponse /\
  fst (processMessage this env c msg store)
  = <[c := applyStep env (pushHistory st (userEntry env msg))
             (stepUpdates this env msg st)]> store /\
  exists st', fst (processMessage this env c msg store) !! c = Some st' /\
    st' = match stepUpdates this env msg st with
          | Some us =>
              setLastActivity (assign (pushHistory st (userEntry env msg)) us) (now env)
          | None => pushHistory st (userEntry env msg)
          end /\
    afterHandler env (pushHistory st (userEntry env msg)) st' /\
    conversationHistory st' = conversationHistory st ++ [userEntry env msg] /\
    forall c', c' <> c -> fst (processMessage this env c msg store) !! c' = store !! c'.
Proof.
  intros H Ht.
  pose proof (processMessage_exact this env c msg store st H) as E.
  cbv zeta in E. rewrite Ht in E.
  split.
  { unfold throws, processMessage in *.
    destruct (processMessageBody this env c msg store) as [store' [r|]];
      [discriminate|reflexivity]. }
  split; [exact E|].
  rewrite E. eexists. split; [apply lookup_insert_eq|].
  split; [now destruct (stepUpdates this env msg st)|].
  split.
  { destruct (stepUpdates this env msg st) as [us|] eqn:Hw; cbn [applyStep];
      [|constructor].
    constructor. exact (stepUpdates_stepWrite _ _ _ _ _ Hw). }
  split.
  { destruct (stepUpdates this env msg st) as [us|]; cbn [applyStep]; [|reflexivity].
    cbn [setLastActivity conversationHistory]. now rewrite assign_history. }
  intros c' Hne. now apply lookup_insert_ne.
Qed.

Lemma throw_keeps_utterance_and_write_witness :
  storeAfter 2 !! sampleCall = Some (recordAfter 2) /\
  throws defaultConfig laterEnv sampleCall "I need a follow-up" (storeAfter 2) = true /\
  stepUpdates defaultConfig laterEnv "I need a follow-up" (recordAfter 2)
  = Some [SetAppointmentType "follow_up"; SetStep "provider_selection"] /\
  snd (processMessage defaultConfig laterEnv sampleCall "I need a follow-up" (storeAfter 2))
  = getErrorResponse /\
  fst (processMessage defaultConfig laterEnv sampleCall "I need a follow-up" (storeAfter 2))
  = <[sampleCall :=
        applyStep laterEnv
          (pushHistory (recordAfter 2) (userEntry laterEnv "I need a follow-up"))
          (stepUpdates defaultConfig laterEnv "I need a follow-up" (recordAfter 2))]>
      (storeAfter 2).
Proof.
  assert (storeAfter 2 !! sampleCall = Some (recordAfter 2)) as H1
    by (vm_compute; reflexivity).
  assert (throws defaultConfig laterEnv sampleCall "I need a follow-up" (storeAfter 2) = true)
    as H2 by (vm_compute; reflexivity).
  split; [exact H1|]. split; [exact H2|]. split; [vm_compute; reflexivity|].
  destruct (throw_keeps_utterance_and_write defaultConfig laterEnv sampleCall
              "I need a follow-up" (storeAfter 2) (recordAfter 2) H1 H2)
    as (Hr & Hs & _).
  split; [exact Hr | exact Hs].
Defined.

Lemma assign_pushHistory st e us :
  assign (pushHistory st e) us = pushHistory (assign st us) e.
Proof.
  unfold assign. revert st.
  induction us as [|u us IH]; intros st; [reflexivity|].
  cbn [fold_left]. rewrite <- IH. f_equal. now destruct u.
Qed.

(** The record a turn leaves under the call's identifier. *)
Lemma processMessage_record this env c msg (store : Store) st :
  store !! c = Some st ->
  exists st',
    fst (processMessage this env c msg store) !! c = Some st' /\
    fst (processMessage this env c msg store) = <[c := st']> store /\
    step st' = step (applyStep env st (stepUpdates this env msg st)) /\
    lastActivity st' = lastActivity (applyStep env st (stepUpdates this env msg st)) /\
    callId st' = callId st /\ startTime st' = startTime st /\
    conversationHistory st'
    = conversationHistory st ++
      userEntry env msg ::
      (if throws this env c msg store then []
       else [agentEntry env (snd (processMessage this env c msg store))]).
Proof.
  intros H. rewrite (processMessage_exact this env c msg store st H).
  eexists. split; [apply lookup_insert_eq|]. split; [reflexivity|].
  set (w := stepUpdates this env msg st).
  set (st2 := applyStep env (pushHistory st (userEntry env msg)) w).
  assert (step st2 = step (applyStep env st w) /\
          lastActivity st2 = lastActivity (applyStep env st w) /\
          callId st2 = callId st /\ startTime st2 = startTime st /\
          conversationHistory st2 = conversationHistory st ++ [userEntry env msg])
    as (Hs & Hl & Hc & Ht & Hh).
  { subst st2. destruct w as [us|]; cbn [applyStep]; [|repeat split].
    rewrite assign_pushHistory.
    destruct (assign_untouched st us) as (Hc & Ht & _).
    cbn [setLastActivity pushHistory step lastActivity callId startTime
         conversationHistory].
    rewrite assign_history. auto. }
  destruct (throws this env c msg store);
    cbn [pushHistory step lastActivity callId startTime conversationHistory];
    rewrite ?Hh, <- ?app_assoc; auto.
Qed.

Lemma processMessage_reply this env c msg (store : Store) st :
  store !! c = Some st ->
  existsb (String.eqb (step st)) switchCases = true ->
  throws this env c msg store = false ->
  nextStep (snd (processMessage this env c msg store))
  = step (applyStep env st (stepUpdates this env msg st))
  \/ (step st = "confirmation"
      /\ nextStep (snd (processMessage this env c msg store)) = "modification").
Proof.
  intros H Hin. unfold throws, processMessage.
  rewrite (processMessageBody_dispatch _ _ _ _ _ _ H).
  set (st1 := pushHistory st (userEntry env msg)).
  destruct (dispatch_spec this env c msg (<[c := st1]> store) st1
              (lookup_insert_eq _ _ _) Hin) as [_ Hr].
  change (step st1) with (step st) in *.
  destruct (dispatch this env (step st) c msg (<[c := st1]> store)) as [store2 [r|]];
    cbn [snd]; [intros _|discriminate].
  cbn [replySatisfies snd] in Hr.
  change (stepUpdates this env msg st1) with (stepUpdates this env msg st) in Hr.
  destruct (stepUpdates this env msg st) as [us|]; cbn [applyStep] in *; [|exact Hr].
  subst st1. rewrite assign_pushHistory in Hr. exact Hr.
Qed.

(** X2: on a step the switch lists, the reply of a turn that did not throw
    announces, as [nextStep], the step the record is stored at after the
    turn; the one exception is the refusal at confirmation, which announces
    "modification" while the record stays at confirmation. *)
Theorem reply_announces_stored_step this env c msg (store : Store) st :
  store !! c = Some st ->
  existsb (String.eqb (step st)) switchCases = true ->
  throws this env c msg store = false ->
  exists st', fst (processMessage this env c msg store) !! c = Some st' /\
    (nextStep (snd (processMessage this env c msg store)) = step st' \/
     (step st' = "confirmation" /\
      nextStep (snd (processMessage this env c msg store)) = "modification")).
Proof.
  intros H Hin Ht.
  destruct (processMessage_record this env c msg store st H)
    as (st' & Hl & _ & Hs & _).
  exists st'. split; [assumption|]. rewrite Hs.
  destruct (processMessage_reply this env c msg store st H Hin Ht) as [E|[Hc E]];
    [now left|right].
  split; [|assumption].
  unfold stepUpdates. rewrite Hc. cbn [String.eqb Ascii.eqb Bool.eqb]. cbv zeta.
  destruct (decide (detectConfirmation msg = Some "yes")) as [Hy|Hy];
    [|exact Hc].
  exfalso. revert E. unfold processMessage.
  rewrite (processMessageBody_dispatch _ _ _ _ _ _ H), Hc.
  change (dispatch this env "confirmation" c msg) with (handleConfirmation env c msg).
  unfold handleConfirmation. destruct (decide (detectConfirmation msg = Some "yes"));
    [|contradiction].
  cbn [createAppointment ar_success]. step_store. cbn. discriminate.
Qed.

Lemma reply_announces_stored_step_witness :
  storeAfter 7 !! sampleCall = Some (recordAfter 7) /\
  existsb (String.eqb (step (recordAfter 7))) switchCases = true /\
  throws sampleConfig laterEnv sampleCall "no, change it" (storeAfter 7) = false /\
  nextStep (snd (processMessage sampleConfig laterEnv sampleCall "no, change it"
                   (storeAfter 7))) = "modification" /\
  exists st',
    fst (processMessage sampleConfig laterEnv sampleCall "no, change it" (storeAfter 7))
      !! sampleCall = Some st' /\
    (nextStep (snd (processMessage sampleConfig laterEnv sampleCall "no, change it"
                      (storeAfter 7))) = step st' \/
     (step st' = "confirmation" /\
      nextStep (snd (processMessage sampleConfig laterEnv sampleCall "no, change it"
                      (storeAfter 7))) = "modification")).
Proof.
  assert (storeAfter 7 !! sampleCall = Some (recordAfter 7)) as H1
    by (vm_compute; reflexivity).
  assert (existsb (String.eqb (step (recordAfter 7))) switchCases = true) as H2
    by (vm_compute; reflexivity).
  assert (throws sampleConfig laterEnv sampleCall "no, change it" (storeAfter 7) = false)
    as H3 by (vm_compute; reflexivity).
  split; [exact H1|]. split; [exact H2|]. split; [exact H3|].
  split; [vm_compute; reflexivity|].
  exact (reply_announces_stored_step sampleConfig laterEnv sampleCall "no, change it"
           (storeAfter 7) (recordAfter 7) H1 H2 H3).
Defined.

(** ** What a turn keeps *)

(** X3: a turn never moves a record to an earlier step: the step stays, or
    moves one stage along the scheduling path. *)
Theorem step_never_goes_back this env c msg (store : Store) st :
  store !! c = Some st ->
  exists st', fst (processMessage this env c msg store) !! c = Some st' /\
    (step st' = step st \/ stage (step st') = S (stage (step st))).
Proof.
  intros H.
  destruct (processMessage_record this env c msg store st H) as (st' & Hl & _ & Hs & _).
  exists st'. split; [assumption|]. rewrite Hs.
  destruct (stepUpdates this env msg st) as [us|] eqn:E; cbn [applyStep]; [right|now left].
  cbn [setLastActivity step].
  apply stepWrite_advances, (stepUpdates_stepWrite _ _ _ _ _ E).
Qed.

Lemma step_never_goes_back_witness :
  storeAfter 4 !! sampleCall = Some (recordAfter 4) /\
  exists st',
    fst (processMessage sampleConfig laterEnv sampleCall "2024-01-15" (storeAfter 4))
      !! sampleCall = Some st' /\
    (step st' = step (recordAfter 4) \/
     stage (step st') = S (stage (step (recordAfter 4)))).
Proof.
  assert (storeAfter 4 !! sampleCall = Some (recordAfter 4)) as H1
    by (vm_compute; reflexivity).
  split; [exact H1|].
  exact (step_never_goes_back sampleConfig laterEnv sampleCall "2024-01-15"
           (storeAfter 4) (recordAfter 4) H1).
Defined.

(** X4: the history is append-only. A turn keeps the record's [callId] and
    [startTime] and extends its history, without touching the earlier
    entries, by the utterance and then the reply; by the utterance alone
    when the handler threw. *)
Theorem history_is_append_only this env c msg (store : Store) st :
  store !! c = Some st ->
  exists st', fst (processMessage this env c msg store) !! c = Some st' /\
    callId st' = callId st /\ startTime st' = startTime st /\
    conversationHistory st'
    = conversationHistory st ++
      userEntry env msg ::
      (if throws this env c msg store then []
       else [agentEntry env (snd (processMessage this env c msg store))]).
Proof.
  intros H.
  destruct (processMessage_record this env c msg store st H)
    as (st' & Hl & _ & _ & _ & Hc & Ht & Hh).
  exists st'. auto.
Qed.

Lemma history_is_append_only_witness :
  storeAfter 1 !! sampleCall = Some (recordAfter 1) /\
  exists st',
    fst (processMessage sampleConfig laterEnv sampleCall "no number here" (storeAfter 1))
      !! sampleCall = Some st' /\
    callId st' = callId (recordAfter 1) /\ startTime st' = startTime (recordAfter 1) /\
    conversationHistory st'
    = conversationHistory (recordAfter 1) ++
      userEntry laterEnv "no number here" ::
      (if throws sampleConfig laterEnv sampleCall "no number here" (storeAfter 1) then []
       else [agentEntry laterEnv
               (snd (processMessage sampleConfig laterEnv sampleCall "no number here"
                       (storeAfter 1)))]).
Proof.
  assert (storeAfter 1 !! sampleCall = Some (recordAfter 1)) as H1
    by (vm_compute; reflexivity).
  split; [exact H1|].
  exact (history_is_append_only sampleConfig laterEnv sampleCall "no number here"
           (storeAfter 1) (recordAfter 1) H1).
Defined.

(** X5: a turn of one call leaves the records of all other calls as they
    were, and neither adds nor removes a call. *)
Theorem other_calls_untouched this env c msg (store : Store) :
  dom (fst (processMessage this env c msg store)) = dom store /\
  forall c', c' <> c -> fst (processMessage this env c msg store) !! c' = store !! c'.
Proof.
  destruct (store !! c) as [st|] eqn:H.
  - destruct (processMessage_record this env c msg store st H) as (st' & _ & E & _).
    rewrite E. split.
    + apply dom_insert_lookup_L. eauto.
    + intros c' Hne. now apply lookup_insert_ne.
  - unfold processMessage. rewrite processMessageBody_unknown by assumption. now split.
Qed.

(** X6: a message for a call that has no record gets the fixed error
    response, and the store is left as it was: no record is created. *)
Theorem unknown_call_gets_error_response this env c msg (store : Store) :
  store !! c = None ->
  processMessage this env c msg store = (store, getErrorResponse).
Proof.
  intros H. unfold processMessage. now rewrite processMessageBody_unknown.
Qed.

Lemma unknown_call_gets_error_response_witness :
  freshStore !! "call_002" = None /\
  processMessage sampleConfig laterEnv "call_002" "I want to schedule" freshStore
  = (freshStore, getErrorResponse).
Proof.
  assert (freshStore !! "call_002" = None) as H1 by (vm_compute; reflexivity).
  split; [exact H1|].
  exact (unknown_call_gets_error_response sampleConfig laterEnv "call_002"
           "I want to schedule" freshStore H1).
Defined.

Lemma processMessage_default this env c msg (store : Store) st :
  store !! c = Some st ->
  existsb (String.eqb (step st)) switchCases = false ->
  processMessage this env c msg store
  = (<[c := pushHistory (pushHistory st (userEntry env msg))
                        (agentEntry env generalInquiryResponse)]> store,
     generalInquiryResponse).
Proof.
  intros H Hs. rewrite (processMessage_dispatch _ _ _ _ _ _ H).
  rewrite (dispatch_default _ _ _ _ _ Hs).
  unfold handleGeneralInquiry, ret. fold generalInquiryResponse.
  unfold addToHistory. rewrite lookup_insert_eq. cbn [fst].
  now rewrite insert_insert_eq.
Qed.

(** X7: a record whose step is none of the names of the switch, such as a
    completed call, gets the general inquiry as reply, which announces
    greeting, and only gains the two history entries: its step does not
    change, so a completed call stays completed. *)
Theorem unlisted_step_gets_general_inquiry this env c msg (store : Store) st :
  store !! c = Some st ->
  existsb (String.eqb (step st)) switchCases = false ->
  snd (processMessage this env c msg store) = generalInquiryResponse /\
  nextStep (snd (processMessage this env c msg store)) = "greeting" /\
  fst (processMessage this env c msg store)
  = <[c := pushHistory (pushHistory st (userEntry env msg))
                       (agentEntry env generalInquiryResponse)]> store /\
  exists st', fst (processMessage this env c msg store) !! c = Some st' /\
              step st' = step st.
Proof.
  intros H Hs. rewrite (processMessage_default this env c msg store st H Hs).
  cbn [fst snd]. repeat split.
  eexists. split; [apply lookup_insert_eq|reflexivity].
Qed.

Lemma unlisted_step_gets_general_inquiry_witness :
  storeAfter 8 !! sampleCall = Some (recordAfter 8) /\
  step (recordAfter 8) = "completed" /\
  existsb (String.eqb (step (recordAfter 8))) switchCases = false /\
  nextStep (snd (processMessage sampleConfig laterEnv sampleCall "schedule another"
                   (storeAfter 8))) = "greeting" /\
  exists st',
    fst (processMessage sampleConfig laterEnv sampleCall "schedule another" (storeAfter 8))
      !! sampleCall = Some st' /\
    step st' = step (recordAfter 8).
Proof.
  assert (storeAfter 8 !! sampleCall = Some (recordAfter 8)) as H1
    by (vm_compute; reflexivity).
  assert (existsb (String.eqb (step (recordAfter 8))) switchCases = false) as H2
    by (vm_compute; reflexivity).
  split; [exact H1|]. split; [vm_compute; reflexivity|]. split; [exact H2|].
  destruct (unlisted_step_gets_general_inquiry sampleConfig laterEnv sampleCall
              "schedule another" (storeAfter 8) (recordAfter 8) H1 H2)
    as (_ & Hn & _ & Hst).
  split; [exact Hn | exact Hst].
Defined.

(** X8: the switch names the steps rescheduling and cancellation, but the
    class defines no handler for them: a message for a record at one of
    these steps ends in the fixed error response, and the record gains the
    utterance and nothing else. *)
Theorem undefined_handlers_end_in_error this env c msg (store : Store) st :
  store !! c = Some st ->
  step st = "rescheduling" \/ step st = "cancellation" ->
  processMessage this env c msg store
  = (<[c := pushHistory st (userEntry env msg)]> store, getErrorResponse).
Proof.
  intros H Hs. rewrite (processMessage_dispatch _ _ _ _ _ _ H).
  destruct Hs as [-> | ->]; reflexivity.
Qed.

Lemma undefined_handlers_end_in_error_witness :
  reschedulingStore !! sampleCall
  = Some (setLastActivity (assign (initialState sampleEnv sampleCall)
                             [SetStep "rescheduling"]) (now sampleEnv)) /\
  processMessage sampleConfig laterEnv sampleCall "move my visit" reschedulingStore
  = (<[sampleCall :=
         pushHistory (setLastActivity (assign (initialState sampleEnv sampleCall)
                                         [SetStep "rescheduling"]) (now sampleEnv))
                     (userEntry laterEnv "move my visit")]> reschedulingStore,
     getErrorResponse).
Proof.
  assert (reschedulingStore !! sampleCall
          = Some (setLastActivity (assign (initialState sampleEnv sampleCall)
                                     [SetStep "rescheduling"]) (now sampleEnv))) as H1
    by (vm_compute; reflexivity).
  split; [exact H1|].
  apply (undefined_handlers_end_in_error sampleConfig laterEnv sampleCall "move my visit"
           reschedulingStore _ H1).
  left. reflexivity.
Defined.

(** X9: a turn refreshes [lastActivity] exactly when it advances the step:
    after the turn it is the clock reading if the step changed, and what it
    was before if the step did not. *)
Theorem lastActivity_refreshed_only_on_advance this env c msg (store : Store) st :
  store !! c = Some st ->
  exists st', fst (processMessage this env c msg store) !! c = Some st' /\
    lastActivity st'
    = if decide (step st' = step st) then lastActivity st else now env.
Proof.
  intros H.
  destruct (processMessage_record this env c msg store st H)
    as (st' & Hl & _ & Hs & Ha & _).
  exists st'. split; [assumption|]. rewrite Hs, Ha.
  destruct (stepUpdates this env msg st) as [us|] eqn:E; cbn [applyStep].
  - pose proof (stepWrite_advances _ _ st (stepUpdates_stepWrite _ _ _ _ _ E)) as Hadv.
    cbn [setLastActivity step lastActivity].
    case_decide as Heq; [|reflexivity]. rewrite Heq in Hadv. lia.
  - case_decide; [reflexivity|contradiction].
Qed.

Lemma lastActivity_refreshed_only_on_advance_witness :
  storeAfter 1 !! sampleCall = Some (recordAfter 1) /\
  exists st',
    fst (processMessage sampleConfig laterEnv sampleCall "no number here" (storeAfter 1))
      !! sampleCall = Some st' /\
    lastActivity st'
    = if decide (step st' = step (recordAfter 1)) then lastActivity (recordAfter 1)
      else now laterEnv.
Proof.
  assert (storeAfter 1 !! sampleCall = Some (recordAfter 1)) as H1
    by (vm_compute; reflexivity).
  split; [exact H1|].
  exact (lastActivity_refreshed_only_on_advance sampleConfig laterEnv sampleCall
           "no number here" (storeAfter 1) (recordAfter 1) H1).
Defined.

(** ** Invariants of the reachable stores *)

Lemma processMessage_turn this env c msg (store : Store) st :
  store !! c = Some st ->
  exists st2,
    afterHandler env (pushHistory st (userEntry env msg)) st2 /\
    if throws this env c msg store
    then fst (processMessage this env c msg store) = <[c := st2]> store
    else fst (processMessage this env c msg store)
         = <[c := pushHistory st2
                    (agentEntry env (snd (processMessage this env c msg store)))]> store.
Proof.
  intros H.
  destruct (processMessageBody_turn this env c msg store st H) as (st2 & res & Ha & E).
  exists st2. split; [assumption|].
  unfold throws, processMessage. rewrite E. now destruct res.
Qed.

(** A property of records that holds of a new record and is kept by the
    pushes and by the writes of the handlers holds throughout every
    reachable store. *)
Lemma reachable_invariant this (P : string -> ConversationRecord -> Prop) :
  (forall env c, P c (initialState env c)) ->
  (forall c st e, P c st -> P c (pushHistory st e)) ->
  (forall env c st st2, P c st -> afterHandler env st st2 -> P c st2) ->
  forall store : Store, reachable this store ->
  forall c st, store !! c = Some st -> P c st.
Proof.
  intros Hinit Hpush Hafter store Hr.
  induction Hr as [|env c0 store Hr IH|env c0 msg store Hr IH|c0 store Hr IH];
    intros c st.
  - rewrite lookup_empty. discriminate.
  - simpl. rewrite lookup_insert. case_decide; intros Hl; simplify_eq; eauto.
  - destruct (store !! c0) as [st0|] eqn:H0.
    + destruct (processMessage_turn this env c0 msg store st0 H0) as (st2 & Ha & E).
      assert (P c0 st2) as H2 by (eapply Hafter; [|exact Ha]; eauto).
      destruct (throws this env c0 msg store); rewrite E;
        rewrite lookup_insert; case_decide; intros Hl; simplify_eq; eauto.
    + unfold processMessage. rewrite processMessageBody_unknown by assumption.
      simpl. apply IH.
  - simpl. rewrite lookup_delete. case_decide; intros Hl; simplify_eq; eauto.
Qed.

Lemma gathered_initial env c : gathered (initialState env c).
Proof.
  unfold gathered, pathSteps; cbn.
  repeat match goal with
         | |- _ /\ _ => split
         | |- _ <-> _ => split; intros H
         end;
    try solve [reflexivity | lia | discriminate | now destruct H | auto].
Qed.

Lemma gathered_afterHandler env st st2 :
  gathered st -> afterHandler env st st2 -> gathered st2.
Proof.
  intros Hg Hafter. destruct Hafter as [|us Hw]; [assumption|].
  unfold gathered in *.
  inversion Hw as [E|ci E|t E|p E|d E|t E|i E|E]; subst us;
    rewrite <- E in Hg; cbn in Hg |- *;
    destruct Hg as (_ & G1 & G2 & G3 & G4 & G5 & G6 & G7 & G8 & G9 & G10).
  all: repeat match goal with |- _ /\ _ => split end; try assumption.
  all: try (split; intros ?).
  all: try solve [tauto | lia | reflexivity | eauto | discriminate].
  all: try solve [apply G1; lia | apply G2; lia | apply G3; lia | apply G4; lia
                 | apply G5; lia | apply G6; lia | apply G7; lia | apply G8; lia].
  all: try solve [exfalso; match goal with H : _ |- _ => apply G1 in H; lia end
                 | exfalso; match goal with H : _ |- _ => apply G2 in H; lia end
                 | exfalso; match goal with H : _ |- _ => apply G3 in H; lia end
                 | exfalso; match goal with H : _ |- _ => apply G4 in H; lia end
                 | exfalso; match goal with H : _ |- _ => apply G5 in H; lia end
                 | exfalso; match goal with H : _ |- _ => apply G6 in H; lia end
                 | exfalso; match goal with H : _ |- _ => apply G7 in H; lia end
                 | exfalso; match goal with H : _ |- _ => apply G8 in H; lia end].
Qed.

Lemma reachable_gathered this (store : Store) c st :
  reachable this store -> store !! c = Some st -> gathered st.
Proof.
  intros Hr. revert c st.
  apply (reachable_invariant this (fun _ => gathered)); auto using gathered_initial.
  intros env c st st2. apply gathered_afterHandler.
Qed.

(** X10: in every reachable store a record's step is one of the nine steps
    of the scheduling path, and exactly the fields of the steps already
    passed are set: [clientVerified] and [clientInfo] from appointment_type
    on, [appointmentType] from provider_selection on, the provider, the date
    and the time from the step after theirs on, [insuranceVerified] and
    [insuranceInfo] from confirmation on; [selectedSlot] is always [null] and
    [availableSlots] always empty. *)
Theorem reachable_records_have_gathered_fields this (store : Store) c st :
  reachable this store ->
  store !! c = Some st ->
  gathered st.
Proof. apply reachable_gathered. Qed.

Lemma reachable_records_have_gathered_fields_witness :
  reachable sampleConfig (storeAfter 5) /\
  storeAfter 5 !! sampleCall = Some (recordAfter 5) /\
  gathered (recordAfter 5).
Proof.
  assert (storeAfter 5 !! sampleCall = Some (recordAfter 5)) as H1
    by (vm_compute; reflexivity).
  split; [apply sample_reachable|]. split; [exact H1|].
  exact (reachable_records_have_gathered_fields sampleConfig (storeAfter 5) sampleCall
           (recordAfter 5) (sample_reachable 5) H1).
Defined.

(** X11: in every reachable store a record is stored under its own
    [callId]. *)
Theorem reachable_record_has_its_key this (store : Store) c st :
  reachable this store ->
  store !! c = Some st ->
  callId st = c.
Proof.
  intros Hr. revert c st.
  apply (reachable_invariant this (fun c st => callId st = c)); auto.
  intros env c st st2 Hc [|us _]; [assumption|].
  destruct (assign_untouched st us) as (E & _). cbn [setLastActivity callId].
  now rewrite E.
Qed.

Lemma reachable_record_has_its_key_witness :
  reachable sampleConfig (storeAfter 8) /\
  storeAfter 8 !! sampleCall = Some (recordAfter 8) /\
  callId (recordAfter 8) = sampleCall.
Proof.
  assert (storeAfter 8 !! sampleCall = Some (recordAfter 8)) as H1
    by (vm_compute; reflexivity).
  split; [apply sample_reachable|]. split; [exact H1|].
  exact (reachable_record_has_its_key sampleConfig (storeAfter 8) sampleCall
           (recordAfter 8) (sample_reachable 8) H1).
Defined.

(** The same, with the writes given by the transition function. *)
Lemma reachable_invariant_exact this (P : string -> ConversationRecord -> Prop) :
  (forall env c, P c (initialState env c)) ->
  (forall c st e, P c st -> P c (pushHistory st e)) ->
  (forall env msg c st, P c st -> P c (applyStep env st (stepUpdates this env msg st))) ->
  forall store : Store, reachable this store ->
  forall c st, store !! c = Some st -> P c st.
Proof.
  intros Hinit Hpush Hstep store Hr.
  induction Hr as [|env c0 store Hr IH|env c0 msg store Hr IH|c0 store Hr IH];
    intros c st.
  - rewrite lookup_empty. discriminate.
  - simpl. rewrite lookup_insert. case_decide; intros Hl; simplify_eq; eauto.
  - destruct (store !! c0) as [st0|] eqn:H0.
    + rewrite (processMessage_exact this env c0 msg store st0 H0).
      pose proof (Hstep env msg c0 _ (Hpush c0 st0 (userEntry env msg) (IH c0 st0 H0)))
        as H2.
      change (stepUpdates this env msg (pushHistory st0 (userEntry env msg)))
        with (stepUpdates this env msg st0) in H2.
      rewrite lookup_insert. case_decide; intros Hl; simplify_eq; [|eauto].
      destruct (throws this env c msg store); auto.
    + unfold processMessage. rewrite processMessageBody_unknown by assumption.
      simpl. apply IH.
  - simpl. rewrite lookup_delete. case_decide; intros Hl; simplify_eq; eauto.
Qed.

Lemma detectProviderSelection_offered this msg type p :
  detectProviderSelection this msg type = Ok (Some p) ->
  exists ps, getAvailableProviders this type = Ok ps /\ In p ps.
Proof.
  unfold detectProviderSelection.
  destruct (getAvailableProviders this type) as [ps|]; [|discriminate].
  intros E. injection E as E. apply find_some in E as [Hin _]. eauto.
Qed.

Lemma providerFits_step this env msg st :
  gathered st -> providerFits this st ->
  providerFits this (applyStep env st (stepUpdates this env msg st)).
Proof.
  intros Hg Hfit. unfold stepUpdates. cbv zeta.
  repeat match goal with
         | |- context [String.eqb (step st) ?k] =>
             destruct (String.eqb_spec (step st) k) as [Hs|?]
         end;
    try exact Hfit.
  all: repeat match goal with
              | |- context [match ?x with _ => _ end] => destruct x eqn:?
              end; try exact Hfit.
  all: unfold providerFits; cbn; try exact Hfit.
  - (* appointment_type: no provider has been chosen yet *)
    destruct Hg as (_ & _ & _ & _ & G4 & _). rewrite Hs in G4. cbn in G4.
    intros q Hq. assert (is_Some (preferredProvider st)) as Hsome by eauto.
    apply G4 in Hsome. lia.
  - (* provider_selection: the provider found is one of those offered *)
    intros q Hq. injection Hq as <-.
    eapply detectProviderSelection_offered. eassumption.
Qed.

Lemma gathered_step this env msg st :
  gathered st -> gathered (applyStep env st (stepUpdates this env msg st)).
Proof.
  intros Hg. destruct (stepUpdates this env msg st) as [us|] eqn:E; [|exact Hg].
  cbn [applyStep]. eapply gathered_afterHandler; [exact Hg|].
  constructor. eapply stepUpdates_stepWrite. exact E.
Qed.

(** X12: in every reachable store, the preferred provider of a record, when
    set, is one of the providers that [getAvailableProviders] returns for
    the record's appointment type. *)
Theorem preferred_provider_fits_appointment_type this (store : Store) c st p :
  reachable this store ->
  store !! c = Some st ->
  preferredProvider st = Some p ->
  exists ps, getAvailableProviders this (appointmentType st) = Ok ps /\ In p ps.
Proof.
  intros Hr Hl.
  assert (gathered st /\ providerFits this st) as [_ Hfit]; [|exact (Hfit p)].
  revert c st Hl.
  apply (reachable_invariant_exact this (fun _ st => gathered st /\ providerFits this st)).
  - intros env c. split; [apply gathered_initial|]. intros q Hq. discriminate.
  - intros c st e H. exact H.
  - intros env msg c st [Hg Hf].
    split; [now apply gathered_step|now apply providerFits_step].
  - exact Hr.
Qed.

Lemma preferred_provider_fits_appointment_type_witness :
  reachable sampleConfig (storeAfter 4) /\
  storeAfter 4 !! sampleCall = Some (recordAfter 4) /\
  preferredProvider (recordAfter 4)
  = Some {| pid := "charles_maddix"; pname := "Charles Maddix";
            pschedule := default None (providerSchedules sampleConfig !! "charles_maddix") |} /\
  exists ps, getAvailableProviders sampleConfig (appointmentType (recordAfter 4)) = Ok ps /\
    In {| pid := "charles_maddix"; pname := "Charles Maddix";
          pschedule := default None (providerSchedules sampleConfig !! "charles_maddix") |} ps.
Proof.
  assert (storeAfter 4 !! sampleCall = Some (recordAfter 4)) as H1
    by (vm_compute; reflexivity).
  assert (preferredProvider (recordAfter 4)
          = Some {| pid := "charles_maddix"; pname := "Charles Maddix";
                    pschedule := default None
                                   (providerSchedules sampleConfig !! "charles_maddix") |})
    as H2 by (vm_compute; reflexivity).
  split; [apply sample_reachable|]. split; [exact H1|]. split; [exact H2|].
  exact (preferred_provider_fits_appointment_type sampleConfig (storeAfter 4) sampleCall
           (recordAfter 4) _ (sample_reachable 4) H1 H2).
Defined.

(** ** Keywords that contain other keywords *)

Lemma startsWith_app s p : JS.startsWith s p = true <-> exists post, s = p +:+ post.
Proof.
  revert s. induction p as [|a p IH]; intros s.
  - split; [intros _; now exists s | intros _; now destruct s].
  - destruct s as [|b s]; cbn [JS.startsWith].
    + split; [discriminate | intros [post E]; discriminate].
    + rewrite andb_true_iff, Ascii.eqb_eq, IH. split.
      * intros [-> [post ->]]. now exists post.
      * intros [post E]. injection E as -> ->. split; [reflexivity | now exists post].
Qed.

Lemma string_app_assoc (a b c : string) : (a +:+ b) +:+ c = a +:+ (b +:+ c).
Proof.
  induction a as [|x a IH]; [reflexivity|].
  change (String x ((a +:+ b) +:+ c) = String x (a +:+ (b +:+ c))). now f_equal.
Qed.

Lemma includes_app s sub :
  JS.includes s sub = true <-> exists pre post, s = pre +:+ sub +:+ post.
Proof.
  induction s as [|b s IH].
  - cbn [JS.includes]. rewrite orb_false_r, startsWith_app. split.
    + intros [post E]. now exists EmptyString, post.
    + intros (pre & post & E). destruct pre; [now exists post | discriminate].
  - cbn [JS.includes]. rewrite orb_true_iff, startsWith_app, IH. split.
    + intros [[post E]|(pre & post & E)].
      * now exists EmptyString, post.
      * exists (String b pre), post. cbn. now rewrite E.
    + intros (pre & post & E). destruct pre as [|x pre].
      * left. now exists post.
      * right. injection E as -> E. now exists pre, post.
Qed.

Lemma includes_trans s a b :
  JS.includes s a = true -> JS.includes a b = true -> JS.includes s b = true.
Proof.
  rewrite !includes_app. intros (p1 & q1 & ->) (p2 & q2 & ->).
  exists (p1 +:+ p2), (q2 +:+ q1). now rewrite !string_app_assoc.
Qed.

(** X13: the keyword "reschedule" never decides the intent: an utterance
    that contains it contains "schedule", which is tested first, and is
    classified schedule; [detectIntent] answers reschedule exactly for the
    utterances that contain "change" and none of "schedule", "book" and
    "appointment". *)
Theorem reschedule_is_heard_as_schedule msg :
  (JS.includes (JS.toLowerCase msg) "reschedule" = true -> detectIntent msg = "schedule") /\
  (detectIntent msg = "reschedule" <->
   JS.includes (JS.toLowerCase msg) "change" = true /\
   JS.includes (JS.toLowerCase msg) "schedule" = false /\
   JS.includes (JS.toLowerCase msg) "book" = false /\
   JS.includes (JS.toLowerCase msg) "appointment" = false).
Proof.
  split.
  { intros H. unfold detectIntent.
    now rewrite (includes_trans _ "reschedule" "schedule" H eq_refl). }
  unfold detectIntent.
  destruct (JS.includes (JS.toLowerCase msg) "schedule") eqn:H1; cbn [orb];
    [split; [discriminate | intros (_ & ? & _); discriminate]|].
  destruct (JS.includes (JS.toLowerCase msg) "book") eqn:H2; cbn [orb];
    [split; [discriminate | intros (_ & _ & ? & _); discriminate]|].
  destruct (JS.includes (JS.toLowerCase msg) "appointment") eqn:H3; cbn [orb];
    [split; [discriminate | intros (_ & _ & _ & ?); discriminate]|].
  destruct (JS.includes (JS.toLowerCase msg) "reschedule") eqn:H4.
  { now rewrite (includes_trans _ "reschedule" "schedule" H4 eq_refl) in H1. }
  cbn [orb]. destruct (JS.includes (JS.toLowerCase msg) "change").
  - now split.
  - split; [|intros (? & _); discriminate].
    destruct (JS.includes (JS.toLowerCase msg) "cancel"); discriminate.
Qed.

Lemma reschedule_is_heard_as_schedule_witness :
  JS.includes (JS.toLowerCase "I need to reschedule my visit") "reschedule" = true /\
  detectIntent "I need to reschedule my visit" = "schedule".
Proof.
  assert (JS.includes (JS.toLowerCase "I need to reschedule my visit") "reschedule" = true)
    as H1 by (vm_compute; reflexivity).
  split; [exact H1|].
  exact (proj1 (reschedule_is_heard_as_schedule "I need to reschedule my visit") H1).
Defined.

Lemma incorrect_is_yes msg :
  JS.includes (JS.toLowerCase msg) "incorrect" = true ->
  detectConfirmation msg = Some "yes".
Proof.
  intros H. unfold detectConfirmation.
  rewrite (includes_trans _ "incorrect" "correct" H eq_refl).
  now rewrite orb_true_r.
Qed.

(** X14: the keyword "incorrect" is never heard as a refusal: it contains
    "correct", which is tested first. At step confirmation an utterance that
    contains "incorrect" is taken for a yes: the appointment is created and
    the record moves to completed. *)
Theorem incorrect_confirms_the_appointment this env c msg (store : Store) st :
  store !! c = Some st ->
  step st = "confirmation" ->
  JS.includes (JS.toLowerCase msg) "incorrect" = true ->
  detectConfirmation msg = Some "yes" /\
  nextStep (snd (processMessage this env c msg store)) = "completed" /\
  exists st', fst (processMessage this env c msg store) !! c = Some st' /\
              step st' = "completed".
Proof.
  intros H Hs Hi. pose proof (incorrect_is_yes msg Hi) as Hy.
  split; [exact Hy|].
  rewrite (processMessage_dispatch _ _ _ _ _ _ H), Hs.
  change (dispatch this env "confirmation" c msg) with (handleConfirmation env c msg).
  unfold handleConfirmation. rewrite Hy.
  destruct (decide (Some "yes" = Some "yes")) as [_|Hn]; [|contradiction].
  cbn [createAppointment ar_success]. step_store. cbn [fst snd].
  split; [reflexivity|].
  eexists. split; [eapply addToHistory_lookup, lookup_insert_eq|reflexivity].
Qed.

Lemma incorrect_confirms_the_appointment_witness :
  storeAfter 7 !! sampleCall = Some (recordAfter 7) /\
  step (recordAfter 7) = "confirmation" /\
  JS.includes (JS.toLowerCase "That is incorrect") "incorrect" = true /\
  detectConfirmation "That is incorrect" = Some "yes" /\
  nextStep (snd (processMessage sampleConfig laterEnv sampleCall "That is incorrect"
                   (storeAfter 7))) = "completed" /\
  exists st',
    fst (processMessage sampleConfig laterEnv sampleCall "That is incorrect" (storeAfter 7))
      !! sampleCall = Some st' /\
    step st' = "completed".
Proof.
  assert (storeAfter 7 !! sampleCall = Some (recordAfter 7)) as H1
    by (vm_compute; reflexivity).
  assert (step (recordAfter 7) = "confirmation") as H2 by (vm_compute; reflexivity).
  assert (JS.includes (JS.toLowerCase "That is incorrect") "incorrect" = true) as H3
    by (vm_compute; reflexivity).
  split; [exact H1|]. split; [exact H2|]. split; [exact H3|].
  exact (incorrect_confirms_the_appointment sampleConfig laterEnv sampleCall
           "That is incorrect" (storeAfter 7) (recordAfter 7) H1 H2 H3).
Defined.

(** ** Insurance, once more *)

(** X15: at step insurance_verification no utterance gets a reply with
    [selfPayOption]. When no accepted insurer is named the record stays, not
    verified further, and the reply lists the five accepted insurers; when
    one is named it is one of the accepted list, and the record becomes
    [insuranceVerified] with the simulated result and moves to confirmation. *)
Theorem insurance_step_never_offers_self_pay this env c msg (store : Store) st :
  store !! c = Some st ->
  step st = "insurance_verification" ->
  selfPayOption (snd (processMessage this env c msg store)) = None /\
  exists st', fst (processMessage this env c msg store) !! c = Some st' /\
    match extractInsuranceInfo msg with
    | None =>
        step st' = "insurance_verification" /\
        insuranceVerified st' = insuranceVerified st /\
        options (snd (processMessage this env c msg store))
        = Some ["Aetna"; "Blue Cross Blue Shield"; "Cigna"; "Medicare"; "Tricare"]
    | Some p =>
        In p acceptedProviders /\
        step st' = "confirmation" /\ insuranceVerified st' = true /\
        insuranceInfo st' = Some (simulateInsuranceVerification p)
    end.
Proof.
  intros H Hs. rewrite (processMessage_dispatch _ _ _ _ _ _ H), Hs.
  change (dispatch this env "insurance_verification" c msg)
    with (handleInsuranceVerification env c msg).
  unfold handleInsuranceVerification.
  destruct (extractInsuranceInfo msg) as [p|] eqn:He.
  - rewrite (extractInsuranceInfo_accepted _ _ He).
    cbn [negb simulateInsuranceVerification iv_verified].
    assert (In p acceptedProviders) as Hin.
    { unfold extractInsuranceInfo in He. now apply find_some in He as [? _]. }
    step_store.
    match goal with
    | |- context [match preferredProvider ?r with _ => _ end] =>
        change (preferredProvider r) with (preferredProvider st)
    end.
    destruct (preferredProvider st) as [preferred|]; step_store; cbn [fst snd];
      (split; [reflexivity|]); eexists;
      (split; [first [eapply addToHistory_lookup, lookup_insert_eq
                     | apply lookup_insert_eq]|]);
      repeat split; assumption.
  - cbn [fst snd]. split; [reflexivity|].
    eexists. split; [eapply addToHistory_lookup, lookup_insert_eq|].
    cbn. auto.
Qed.


Lemma insurance_step_never_offers_self_pay_witness :
  storeAfter 6 !! sampleCall = Some (recordAfter 6) /\
  step (recordAfter 6) = "insurance_verification" /\
  selfPayOption (snd (processMessage sampleConfig laterEnv sampleCall
                        "My insurer is Humana" (storeAfter 6))) = None.
Proof.
  assert (storeAfter 6 !! sampleCall = Some (recordAfter 6)) as H1
    by (vm_compute; reflexivity).
  assert (step (recordAfter 6) = "insurance_verification") as H2
    by (vm_compute; reflexivity).
  split; [exact H1|]. split; [exact H2|].
  exact (proj1 (insurance_step_never_offers_self_pay sampleConfig laterEnv sampleCall
                  "My insurer is Humana" (storeAfter 6) (recordAfter 6) H1 H2)).
Defined.

(** ** Identity *)

(** X20: at step verification, any utterance in which the phone pattern and
    the date pattern both match verifies the caller: the record becomes
    [clientVerified] with the client "client_001", "John Doe" and the two
    matched texts, and moves to appointment_type; when either pattern finds
    nothing the record stays as it is and the reply asks again. *)
Theorem any_phone_and_date_verify this env c msg (store : Store) st :
  store !! c = Some st ->
  step st = "verification" ->
  exists st', fst (processMessage this env c msg store) !! c = Some st' /\
    match Regex.exec Regex.phoneRegex msg, Regex.exec Regex.dateRegex msg with
    | Some phone, Some dob =>
        clientVerified st' = true /\
        clientInfo st' = Some {| ci_id := "client_001"; ci_name := "John Doe";
                                 ci_phone := Some phone; ci_dateOfBirth := Some dob |} /\
        step st' = "appointment_type"
    | _, _ =>
        clientVerified st' = clientVerified st /\ clientInfo st' = clientInfo st /\
        step st' = "verification" /\
        requiresVerification (snd (processMessage this env c msg store)) = Some true
    end.
Proof.
  intros H Hs. rewrite (processMessage_dispatch _ _ _ _ _ _ H), Hs.
  change (dispatch this env "verification" c msg) with (handleVerification env c msg).
  unfold handleVerification, extractVerificationData.
  cbn [phoneNumber dateOfBirth].
  destruct (Regex.exec Regex.phoneRegex msg) as [phone|];
    destruct (Regex.exec Regex.dateRegex msg) as [dob|];
    cbn [simulateVerification vr_verified vr_clientInfo phoneNumber dateOfBirth];
    step_store; cbn [fst snd];
    (eexists; split; [eapply addToHistory_lookup, lookup_insert_eq|]);
    repeat split; assumption.
Qed.


Lemma any_phone_and_date_verify_witness :
  storeAfter 1 !! sampleCall = Some (recordAfter 1) /\
  step (recordAfter 1) = "verification" /\
  Regex.exec Regex.phoneRegex "call 000 000 0000 on 99/99/0000" = Some " 000 000 0000" /\
  Regex.exec Regex.dateRegex "call 000 000 0000 on 99/99/0000" = Some "99/99/0000" /\
  exists st',
    fst (processMessage sampleConfig laterEnv sampleCall "call 000 000 0000 on 99/99/0000"
           (storeAfter 1)) !! sampleCall = Some st' /\
    clientVerified st' = true /\ step st' = "appointment_type".
Proof.
  assert (storeAfter 1 !! sampleCall = Some (recordAfter 1)) as H1
    by (vm_compute; reflexivity).
  assert (step (recordAfter 1) = "verification") as H2 by (vm_compute; reflexivity).
  assert (Regex.exec Regex.phoneRegex "call 000 000 0000 on 99/99/0000"
          = Some " 000 000 0000") as H3 by (vm_compute; reflexivity).
  assert (Regex.exec Regex.dateRegex "call 000 000 0000 on 99/99/0000"
          = Some "99/99/0000") as H4 by (vm_compute; reflexivity).
  split; [exact H1|]. split; [exact H2|]. split; [exact H3|]. split; [exact H4|].
  destruct (any_phone_and_date_verify sampleConfig laterEnv sampleCall
              "call 000 000 0000 on 99/99/0000" (storeAfter 1) (recordAfter 1) H1 H2)
    as (st' & Hl & Hm).
  rewrite H3, H4 in Hm. destruct Hm as (Hv & _ & Hs).
  exists st'. auto.
Defined.

(** ** Providers, dates and slots, once more *)

(** X17: when [getAvailableProviders] returns, it returns Charles Maddix and
    Ava Suleiman, in this order, followed by Dr. Soto exactly for a
    follow_up, each with the schedule the configuration has under the
    provider's identifier. *)
Theorem available_providers_by_type this t ps :
  getAvailableProviders this t = Ok ps ->
  map pid ps = ["charles_maddix"; "ava_suleiman"]
               ++ (if decide (t = Some "follow_up") then ["dr_soto"] else []) /\
  map pname ps = ["Charles Maddix"; "Ava Suleiman"]
                 ++ (if decide (t = Some "follow_up") then ["Dr. Soto"] else []) /\
  forall p, In p ps -> providerSchedules this !! pid p = Some (pschedule p).
Proof.
  unfold getAvailableProviders, scheduleOf.
  destruct (providerSchedules this !! "charles_maddix") as [s1|] eqn:E1; [|discriminate].
  destruct (providerSchedules this !! "ava_suleiman") as [s2|] eqn:E2; [|discriminate].
  case_decide as Ht.
  - destruct (providerSchedules this !! "dr_soto") as [s3|] eqn:E3; [|discriminate].
    intros E. injection E as <-. repeat split.
    intros p [<-|[<-|[<-|[]]]]; assumption.
  - intros E. injection E as <-. repeat split.
    intros p [<-|[<-|[]]]; assumption.
Qed.


Lemma available_providers_by_type_witness :
  map pid (match getAvailableProviders sampleConfig (Some "ketamine_consultation") with
           | Ok ps => ps
           | Throw => []
           end)
  = ["charles_maddix"; "ava_suleiman"].
Proof.
  destruct (getAvailableProviders sampleConfig (Some "ketamine_consultation")) as [ps|]
    eqn:E; [|vm_compute in E; discriminate].
  exact (proj1 (available_providers_by_type sampleConfig (Some "ketamine_consultation")
                  ps E)).
Defined.

Lemma datesLoop_spec provider today n : forall i dates d,
  datesLoop provider today n i = Ok dates ->
  (In d dates <->
   exists k, i <= k < i + Z.of_nat n /\
     d = Moment.formatDate (Moment.addDays today k) /\
     exists day,
       daySchedule provider
         (JS.toLowerCase (Moment.formatWeekday (Moment.addDays today k))) = Ok (Some day)).
Proof.
  induction n as [|n IH]; intros i dates d.
  - cbn [datesLoop]. intros E. injection E as <-. split; [intros []|].
    intros (k & Hk & _). lia.
  - cbn [datesLoop].
    destruct (daySchedule provider _) as [entry|] eqn:Hd; [|discriminate].
    destruct (datesLoop provider today n (i + 1)) as [rest|] eqn:Hr; [|discriminate].
    intros E. injection E as <-. specialize (IH (i + 1) rest d Hr).
    split.
    + intros Hin.
      assert (In d rest \/ (exists day, entry = Some day) /\
              d = Moment.formatDate (Moment.addDays today i)) as [Hrest|[[day ->] ->]].
      { destruct entry as [day|]; [destruct Hin as [<-|Hin]|]; eauto. }
      * apply IH in Hrest as (k & Hk & E & Hday). exists k. split; [lia|auto].
      * exists i. split; [lia|]. eauto.
    + intros (k & Hk & -> & day & Hday).
      destruct (Z.eq_dec k i) as [->|Hne].
      * rewrite Hday in Hd. injection Hd as <-. now left.
      * assert (In (Moment.formatDate (Moment.addDays today k)) rest) as Hin.
        { apply IH. exists k. split; [lia|]. eauto. }
        destruct entry; [now right|assumption].
Qed.

Lemma datesLoop_length provider today n : forall i dates,
  datesLoop provider today n i = Ok dates -> (length dates <= n)%nat.
Proof.
  induction n as [|n IH]; intros i dates.
  - cbn [datesLoop]. intros E. injection E as <-. reflexivity.
  - cbn [datesLoop].
    destruct (daySchedule provider _) as [entry|]; [|discriminate].
    destruct (datesLoop provider today n (i + 1)) as [rest|] eqn:Hr; [|discriminate].
    intros E. injection E as <-. specialize (IH (i + 1) rest Hr).
    destruct entry; cbn [length]; lia.
Qed.

(** X18: when [getAvailableDates] returns, its dates are exactly the days,
    among the 30 that follow today, whose weekday has an entry in the
    provider's schedule, each formatted as a date; there are at most 30. *)
Theorem available_dates_are_the_scheduled_days env provider dates :
  getAvailableDates env provider = Ok dates ->
  (length dates <= 30)%nat /\
  forall d,
    In d dates <->
    exists k, 1 <= k <= 30 /\
      d = Moment.formatDate (Moment.addDays (today env) k) /\
      exists day,
        daySchedule provider
          (JS.toLowerCase (Moment.formatWeekday (Moment.addDays (today env) k)))
        = Ok (Some day).
Proof.
  unfold getAvailableDates. intros E. split; [exact (datesLoop_length _ _ _ _ _ E)|].
  intros d. rewrite (datesLoop_spec _ _ _ _ _ d E). split.
  - intros (k & Hk & H). exists k. split; [lia|exact H].
  - intros (k & Hk & H). exists k. split; [lia|exact H].
Qed.

Lemma available_dates_are_the_scheduled_days_witness :
  getAvailableDates sampleEnv (Some charlesMaddix) = Ok mondayDates /\
  (length mondayDates <= 30)%nat /\
  forall d,
    In d mondayDates <->
    exists k, 1 <= k <= 30 /\
      d = Moment.formatDate (Moment.addDays (today sampleEnv) k) /\
      exists day,
        daySchedule (Some charlesMaddix)
          (JS.toLowerCase (Moment.formatWeekday (Moment.addDays (today sampleEnv) k)))
        = Ok (Some day).
Proof.
  assert (getAvailableDates sampleEnv (Some charlesMaddix) = Ok mondayDates) as H1
    by (vm_compute; reflexivity).
  split; [exact H1|].
  exact (available_dates_are_the_scheduled_days sampleEnv (Some charlesMaddix)
           mondayDates H1).
Defined.

(** The text of a number reads back as the number. *)

Lemma decVal_digitChar d : 0 <= d <= 9 -> JS.decVal (JS.digitChar d) = Some d.
Proof.
  intros H.
  assert (d = 0 \/ d = 1 \/ d = 2 \/ d = 3 \/ d = 4 \/ d = 5 \/ d = 6 \/ d = 7 \/ d = 8
          \/ d = 9) as Hd by lia.
  repeat (destruct Hd as [->|Hd]; [reflexivity|]). now subst.
Qed.

Lemma isDigit_digitChar d : 0 <= d <= 9 -> JS.isDigit (JS.digitChar d) = true.
Proof.
  intros H. pose proof (decVal_digitChar d H) as E. unfold JS.decVal in E.
  now destruct (JS.isDigit (JS.digitChar d)).
Qed.

Lemma readDigits_digitsFuel f : forall n acc,
  0 < n < 2 ^ Z.of_nat f ->
  JS.readDigits JS.decVal 10 (JS.digitsFuel f n acc) None
  = JS.readDigits JS.decVal 10 acc (Some n).
Proof.
  induction f as [|f IH]; intros n acc Hn; [cbn in Hn; lia|].
  cbn [JS.digitsFuel].
  assert (0 <= n mod 10 <= 9) as Hm by (pose proof (Z.mod_pos_bound n 10); lia).
  pose proof (Z.div_mod n 10 ltac:(lia)) as Hdm.
  destruct (n / 10 =? 0) eqn:Hq.
  - apply Z.eqb_eq in Hq. cbn [JS.readDigits]. rewrite decVal_digitChar by assumption.
    cbn [default]. unfold id. do 2 f_equal. lia.
  - apply Z.eqb_neq in Hq. rewrite IH.
    + cbn [JS.readDigits]. rewrite decVal_digitChar by assumption.
      cbn [default]. unfold id. do 2 f_equal. lia.
    + rewrite Nat2Z.inj_succ, Z.pow_succ_r in Hn by lia.
      pose proof (Z.div_pos n 10). split; [lia|].
      apply Z.div_lt_upper_bound; lia.
Qed.

Lemma log2_fuel n : 0 < n -> 0 < n < 2 ^ Z.of_nat (S (Z.to_nat (Z.log2 n))).
Proof.
  intros H. split; [assumption|].
  rewrite Nat2Z.inj_succ, Z2Nat.id by apply Z.log2_nonneg.
  now apply Z.log2_spec.
Qed.

Lemma readDigits_digits n :
  0 < n -> JS.readDigits JS.decVal 10 (JS.digits n) None = Some n.
Proof. intros H. unfold JS.digits. now rewrite readDigits_digitsFuel by now apply log2_fuel. Qed.

(** The digits of a positive number: a leading digit that is not 0, then
    digits only; two characters at least from ten on. *)
Lemma digitsFuel_shape f : forall n acc,
  0 < n < 2 ^ Z.of_nat f ->
  allChars JS.isDigit acc = true ->
  exists d rest, JS.digitsFuel f n acc = String (JS.digitChar d) rest /\ 1 <= d <= 9 /\
    allChars JS.isDigit rest = true /\
    (String.length acc <= String.length rest)%nat /\
    (10 <= n -> (1 <= String.length rest)%nat) /\
    (n < 10 -> d = n /\ rest = acc).
Proof.
  induction f as [|f IH]; intros n acc Hn Hacc; [cbn in Hn; lia|].
  cbn [JS.digitsFuel].
  assert (0 <= n mod 10 <= 9) as Hm by (pose proof (Z.mod_pos_bound n 10); lia).
  pose proof (Z.div_mod n 10 ltac:(lia)) as Hdm.
  destruct (n / 10 =? 0) eqn:Hq.
  - apply Z.eqb_eq in Hq. exists (n mod 10), acc.
    repeat split; try assumption; try lia.
  - apply Z.eqb_neq in Hq.
    assert (0 < n / 10 < 2 ^ Z.of_nat f) as Hn'.
    { rewrite Nat2Z.inj_succ, Z.pow_succ_r in Hn by lia.
      pose proof (Z.div_pos n 10). split; [lia|]. apply Z.div_lt_upper_bound; lia. }
    destruct (IH (n / 10) (String (JS.digitChar (n mod 10)) acc) Hn') as
      (d & rest & E & Hd & Hrest & Hlen & _ & _).
    { cbn [allChars]. now rewrite isDigit_digitChar, Hacc. }
    exists d, rest. cbn [String.length] in Hlen.
    repeat split; try assumption; try lia.
Qed.

Lemma digits_shape n :
  0 < n ->
  exists d rest, JS.digits n = String (JS.digitChar d) rest /\ 1 <= d <= 9 /\
    allChars JS.isDigit rest = true /\
    (10 <= n -> (1 <= String.length rest)%nat) /\
    (n < 10 -> d = n /\ rest = EmptyString).
Proof.
  intros H. unfold JS.digits.
  destruct (digitsFuel_shape _ n EmptyString (log2_fuel n H) eq_refl)
    as (d & rest & E & Hd & Hr & _ & H10 & H1).
  exists d, rest. auto.
Qed.

Lemma digitChar_cases d :
  1 <= d <= 9 ->
  JS.isSpace (JS.digitChar d) = false /\
  JS.digitChar d <> "-"%char /\ JS.digitChar d <> "+"%char /\ JS.digitChar d <> "0"%char /\
  JS.isDigit (JS.digitChar d) = true.
Proof.
  intros H.
  assert (d = 1 \/ d = 2 \/ d = 3 \/ d = 4 \/ d = 5 \/ d = 6 \/ d = 7 \/ d = 8
          \/ d = 9) as Hd by lia.
  repeat (destruct Hd as [->|Hd]; [repeat split; discriminate|]).
  subst. repeat split; discriminate.
Qed.

Lemma readUnsigned_digits n : 0 < n -> JS.readUnsigned (JS.digits n) = Some n.
Proof.
  intros H. pose proof (readDigits_digits n H) as E.
  destruct (digits_shape n H) as (d & rest & Ed & Hd & _).
  destruct (digitChar_cases d Hd) as (_ & _ & _ & H0 & _).
  rewrite Ed in *. unfold JS.readUnsigned.
  destruct (JS.digitChar d) as [b0 b1 b2 b3 b4 b5 b6 b7] eqn:Ec.
  destruct b0, b1, b2, b3, b4, b5, b6, b7; try exact E. now elim H0.
Qed.

Lemma parseInt_numToString n : JS.parseInt (JS.numToString n) = Some n.
Proof.
  unfold JS.numToString.
  destruct (n =? 0) eqn:H0; [apply Z.eqb_eq in H0; now subst|].
  apply Z.eqb_neq in H0.
  destruct (n <? 0) eqn:Hneg.
  - apply Z.ltb_lt in Hneg. unfold JS.parseInt. cbn [JS.trimStart].
    change (JS.isSpace "-") with false. cbv iota.
    rewrite readUnsigned_digits by lia. cbn. f_equal. lia.
  - apply Z.ltb_ge in Hneg. assert (0 < n) as Hp by lia.
    pose proof (readUnsigned_digits n Hp) as E.
    destruct (digits_shape n Hp) as (d & rest & Ed & Hd & _).
    destruct (digitChar_cases d Hd) as (Hs & Hm & Hpl & _ & _).
    unfold JS.parseInt. rewrite Ed in *. cbn [JS.trimStart]. rewrite Hs.
    destruct (JS.digitChar d) as [b0 b1 b2 b3 b4 b5 b6 b7] eqn:Ec.
    destruct b0, b1, b2, b3, b4, b5, b6, b7; try exact E;
      first [now elim Hm | now elim Hpl].
Qed.

Lemma allChars_weaken (p q : ascii -> bool) s :
  (forall c, p c = true -> q c = true) -> allChars p s = true -> allChars q s = true.
Proof.
  intros Hpq. induction s as [|c s IH]; [reflexivity|].
  cbn [allChars]. rewrite !andb_true_iff. intros [Hc Hs]. auto.
Qed.

Lemma isDigit_notColon c : JS.isDigit c = true -> notColon c = true.
Proof.
  destruct c as [b0 b1 b2 b3 b4 b5 b6 b7].
  destruct b0, b1, b2, b3, b4, b5, b6, b7; (reflexivity || discriminate).
Qed.

Lemma splitHead_app a b :
  allChars notColon a = true -> JS.splitHead ":" (a +:+ String ":" b) = a.
Proof.
  induction a as [|c a IH]; [reflexivity|].
  cbn [allChars]. rewrite andb_true_iff. intros [Hc Ha].
  change (String c a +:+ String ":" b) with (String c (a +:+ String ":" b)).
  cbn [JS.splitHead]. unfold notColon in Hc. apply negb_true_iff in Hc. rewrite Hc.
  now rewrite IH.
Qed.

Lemma padStart_long s c : (2 <= String.length s)%nat -> JS.padStart s 2 c = s.
Proof.
  intros H. unfold JS.padStart.
  replace (2 - String.length s)%nat with 0%nat by lia. reflexivity.
Qed.

(** The text of an hour, as the slots show it, has no colon and reads back
    as the hour. *)
Lemma hourText h :
  allChars notColon (JS.padStart (JS.numToString h) 2 "0") = true /\
  JS.parseInt (JS.padStart (JS.numToString h) 2 "0") = Some h.
Proof.
  destruct (Z_lt_le_dec h 0) as [Hneg|Hpos].
  - assert (JS.numToString h = String "-" (JS.digits (- h))) as E.
    { unfold JS.numToString. destruct (Z.eqb_spec h 0); [lia|].
      destruct (Z.ltb_spec h 0); [reflexivity|lia]. }
    destruct (digits_shape (- h) ltac:(lia)) as (d & rest & Ed & Hd & Hr & _).
    rewrite padStart_long by (rewrite E, Ed; cbn; lia).
    split; [|apply parseInt_numToString].
    rewrite E, Ed. cbn [allChars]. change (notColon "-") with true.
    rewrite (isDigit_notColon _ (isDigit_digitChar d ltac:(lia))).
    apply (allChars_weaken _ _ _ isDigit_notColon Hr).
  - destruct (Z_lt_le_dec h 10) as [Hsmall|Hbig].
    + assert (h = 0 \/ h = 1 \/ h = 2 \/ h = 3 \/ h = 4 \/ h = 5 \/ h = 6 \/ h = 7
              \/ h = 8 \/ h = 9) as Hh by lia.
      repeat (destruct Hh as [->|Hh]; [split; reflexivity|]). subst. split; reflexivity.
    + assert (JS.numToString h = JS.digits h) as E.
      { unfold JS.numToString. destruct (Z.eqb_spec h 0); [lia|].
        destruct (Z.ltb_spec h 0); [lia|reflexivity]. }
      destruct (digits_shape h ltac:(lia)) as (d & rest & Ed & Hd & Hr & H10 & _).
      specialize (H10 Hbig).
      rewrite padStart_long by (rewrite E, Ed; cbn; lia).
      split; [|apply parseInt_numToString].
      rewrite E, Ed. cbn [allChars].
      rewrite (isDigit_notColon _ (isDigit_digitChar d ltac:(lia))).
      apply (allChars_weaken _ _ _ isDigit_notColon Hr).
Qed.

Lemma hourOf_timeString h m : hourOf (timeString h m) = Some h.
Proof.
  unfold hourOf, timeString. destruct (hourText h) as [Hc Hp].
  change (":" +:+ ?b) with (String ":" b).
  now rewrite splitHead_app.
Qed.

(** X16: the hour read back from a slot of [getAvailableTimes], as the code
    reads the hour of a schedule bound, lies from the hour of the day's start
    up to, and not including, the hour of its end, and is not an hour of the
    lunch break. *)
Theorem slot_hours_within_schedule this provider date slots s :
  getAvailableTimes this provider date = Ok slots ->
  In s slots ->
  exists day st en sh eh h,
    daySchedule provider (JS.toLowerCase (Moment.formatWeekday (momentOf date)))
    = Ok (Some day) /\
    start day = Some st /\ end_ day = Some en /\
    hourOf st = Some sh /\ hourOf en = Some eh /\
    hourOf s = Some h /\ sh <= h < eh /\
    inLunch h (hourOf (lunchBreakStart this)) (hourOf (lunchBreakEnd this)) = false.
Proof.
  intros Hg Hin.
  destruct (getAvailableTimes_hours this provider date slots s Hg Hin)
    as (day & st & en & sh & eh & h & m & Hd & Hst & Hen & Hsh & Heh & -> & Hr & Hl & _).
  exists day, st, en, sh, eh, h. rewrite hourOf_timeString. auto 10.
Qed.


Lemma slot_hours_within_schedule_witness :
  getAvailableTimes sampleConfig (Some charlesMaddix) (Some "2024-01-15") = Ok mondaySlots /\
  In "14:00" mondaySlots /\
  exists day st en sh eh h,
    daySchedule (Some charlesMaddix)
      (JS.toLowerCase (Moment.formatWeekday (momentOf (Some "2024-01-15"))))
    = Ok (Some day) /\
    start day = Some st /\ end_ day = Some en /\
    hourOf st = Some sh /\ hourOf en = Some eh /\
    hourOf "14:00" = Some h /\ sh <= h < eh /\
    inLunch h (hourOf (lunchBreakStart sampleConfig)) (hourOf (lunchBreakEnd sampleConfig))
    = false.
Proof.
  assert (getAvailableTimes sampleConfig (Some charlesMaddix) (Some "2024-01-15")
          = Ok mondaySlots) as H1 by (vm_compute; reflexivity).
  assert (In "14:00" mondaySlots) as H2 by (unfold mondaySlots; cbn [In]; tauto).
  split; [exact H1|]. split; [exact H2|].
  exact (slot_hours_within_schedule sampleConfig (Some charlesMaddix) (Some "2024-01-15")
           mondaySlots "14:00" H1 H2).
Defined.

(** X19: the directory functions throw exactly when there is nothing to
    look the weekday up in: [getAvailableDates] when there is no provider or
    the provider has no schedule, [getAvailableTimes] in these two cases and
    when the entry of the weekday lacks its start or its end. *)
Theorem directory_throws_without_schedule this env provider date :
  (getAvailableDates env provider = Throw <->
   provider = None \/ exists p, provider = Some p /\ pschedule p = None) /\
  (getAvailableTimes this provider date = Throw <->
   provider = None \/ (exists p, provider = Some p /\ pschedule p = None) \/
   exists day,
     daySchedule provider (JS.toLowerCase (Moment.formatWeekday (momentOf date)))
     = Ok (Some day) /\
     (start day = None \/ end_ day = None)).
Proof.
  split.
  - unfold getAvailableDates.
    destruct provider as [p|]; [|split; [now left|reflexivity]].
    destruct (pschedule p) as [sch|] eqn:Hp.
    + split; [|intros [?|(q & E & Hq)]; [discriminate|injection E as <-; congruence]].
      intros E. exfalso. revert E. generalize 1. generalize 30%nat.
      intros n. induction n as [|n IH]; intros i; cbn [datesLoop daySchedule];
        [discriminate|]. rewrite Hp.
      destruct (datesLoop (Some p) (today env) n (i + 1)) eqn:Hr; [discriminate|].
      intros _. exact (IH _ Hr).
    + split; [intros _; right; eauto|]. intros _. cbn [datesLoop daySchedule].
      now rewrite Hp.
  - unfold getAvailableTimes.
    destruct provider as [p|]; cbn [daySchedule]; [|split; [now left|reflexivity]].
    destruct (pschedule p) as [sch|] eqn:Hp.
    + destruct (sch !! _) as [day|] eqn:Hday.
      * destruct (start day) as [st|] eqn:Hst; destruct (end_ day) as [en|] eqn:Hen.
        -- split.
           ++ destruct (hourOf st), (hourOf en); discriminate.
           ++ intros [?|[(q & E & Hq)|(d & E & [Hn|Hn])]]; try discriminate.
              ** injection E as <-. congruence.
              ** injection E as <-. congruence.
              ** injection E as <-. congruence.
        -- split; [intros _; right; right; eauto|reflexivity].
        -- split; [intros _; right; right; eauto|reflexivity].
        -- split; [intros _; right; right; eauto|reflexivity].
      * split; [discriminate|].
        intros [?|[(q & E & Hq)|(d & E & _)]]; try discriminate.
        injection E as <-. congruence.
    + split; [intros _; right; left; eauto|reflexivity].
Qed.

Lemma directory_throws_without_schedule_witness :
  getAvailableDates sampleEnv None = Throw /\
  getAvailableTimes sampleConfig None (Some "2024-01-15") = Throw.
Proof.
  split.
  - apply (proj1 (directory_throws_without_schedule sampleConfig sampleEnv None
                    (Some "2024-01-15"))).
    now left.
  - apply (proj2 (directory_throws_without_schedule sampleConfig sampleEnv None
                    (Some "2024-01-15"))).
    now left.
Defined.

(** X23: a date that moment cannot read has the weekday text "Invalid
    date"; unless the schedule has an entry under "invalid date", no slot is
    offered for it. *)
Theorem invalid_date_has_no_slots this p schedule date :
  pschedule p = Some schedule ->
  schedule !! "invalid date" = None ->
  momentOf date = Moment.Invalid ->
  getAvailableTimes this (Some p) date = Ok [].
Proof.
  intros Hp Hs Hd. unfold getAvailableTimes. rewrite Hd.
  cbn [daySchedule]. rewrite Hp.
  change (JS.toLowerCase (Moment.formatWeekday Moment.Invalid)) with "invalid date".
  now rewrite Hs.
Qed.

Lemma invalid_date_has_no_slots_witness :
  pschedule charlesMaddix = Some (<["monday" := hours "10:30" "18:00"]> ∅) /\
  momentOf (Some "Invalid date") = Moment.Invalid /\
  getAvailableTimes sampleConfig (Some charlesMaddix) (Some "Invalid date") = Ok [].
Proof.
  split; [reflexivity|]. split; [reflexivity|].
  apply (invalid_date_has_no_slots sampleConfig charlesMaddix
           (<["monday" := hours "10:30" "18:00"]> ∅) (Some "Invalid date")).
  - reflexivity.
  - vm_compute. reflexivity.
  - reflexivity.
Defined.

(** ** The store operations, once more *)

(** X21: on a call identifier without a record, [updateConversationState],
    [addToHistory] and [cleanupConversation] return without changing the
    store, and [getConversationState] finds nothing. *)
Theorem operations_on_an_unknown_call env c us r m (store : Store) :
  store !! c = None ->
  updateConversationState env c us store = (store, Ok tt) /\
  addToHistory env c r m store = (store, Ok tt) /\
  cleanupConversation c store = (store, Ok tt) /\
  getConversationState c store = (store, Ok None).
Proof.
  intros H. unfold updateConversationState, addToHistory, cleanupConversation,
    getConversationState. rewrite H, delete_id by assumption. auto.
Qed.


Lemma operations_on_an_unknown_call_witness :
  freshStore !! "call_002" = None /\
  updateConversationState laterEnv "call_002" [SetStep "confirmation"] freshStore
  = (freshStore, Ok tt).
Proof.
  assert (freshStore !! "call_002" = None) as H1 by (vm_compute; reflexivity).
  split; [exact H1|].
  exact (proj1 (operations_on_an_unknown_call laterEnv "call_002" [SetStep "confirmation"]
                  "user" "Hello" freshStore H1)).
Defined.

(** X22: starting a call stores the initial record under its identifier,
    whatever was stored there before, and touches no other call; ending a
    call removes the record, ending it twice is the same as once, and a
    message that arrives after the end gets the error response without the
    record coming back. *)
Theorem call_life_cycle this env env' c msg (store : Store) :
  fst (initializeConversation env c store) !! c = Some (initialState env c) /\
  (forall c', c' <> c -> fst (initializeConversation env c store) !! c' = store !! c') /\
  fst (cleanupConversation c (fst (initializeConversation env c store))) !! c = None /\
  fst (cleanupConversation c (fst (cleanupConversation c store)))
  = fst (cleanupConversation c store) /\
  processMessage this env' c msg (fst (cleanupConversation c store))
  = (fst (cleanupConversation c store), getErrorResponse).
Proof.
  unfold initializeConversation, cleanupConversation. cbn [fst].
  split; [apply lookup_insert_eq|].
  split; [intros c' Hne; now apply lookup_insert_ne|].
  split; [apply lookup_delete_eq|].
  split; [apply delete_id, lookup_delete_eq|].
  unfold processMessage. rewrite processMessageBody_unknown by apply lookup_delete_eq.
  reflexivity.
Qed.
